(** * Smart-Irrigation-NPK: the fertilizer recommendation dashboard

    A shallow embedding of [frontend/utils.py] (the recommendation
    generator) and of the forecast path of [frontend/app.py]
    ([get_forecast] and the "Forecast" tab), with the properties the
    specification states about them.

    - Python values are dynamically typed, so a cell of the forecast frame
      is a [pyval]. A float is an IEEE binary64 value given by sign, mantissa
      and exponent ([spec_float]); comparison with an integer literal and
      [.2f] formatting are defined on its exact value. An int is an unbounded
      integer, converted to a float before it is formatted.
    - Code that can raise returns an [outcome].
    - The generator is given twice: as a function from the rows to the
      mapping, and as a program on a store of objects that receives a
      reference to the frame and allocates its dictionary. The second is
      shown to compute the first and to touch nothing else.
    - The page is the list of what the script has shown, and its result or
      exception. Of pandas, the frame constructor is a parameter with two
      laws; column assignment and column lookup are defined here as pandas
      documents them. *)

From Stdlib Require Import ZArith QArith Qabs Lqa String Ascii List Lia SpecFloat.
From Stdlib Require Import DecimalString DecimalZ DecimalPos.
From stdpp Require Import gmap strings.
Import ListNotations.

Open Scope Z_scope.

Set Warnings "-register-all,-clear-no-such-hyp".
#[local] Arguments String.append !_ _ / : simpl nomatch.

(** ** Python values, exceptions, outcomes *)

(** The values a parsed JSON document is made of; they are also the cells of
    a data frame. Python's [None] is [PNone]. *)
Inductive pyval : Type :=
  | PNone
  | PBool (b : bool)
  | PInt (z : Z)
  | PFloat (f : spec_float)
  | PStr (s : string)
  | PList (items : list pyval)
  | PDict (fields : list (string * pyval)).

Inductive exn : Type :=
  | KeyError (key : string)
  | TypeError
  | ValueError
  | OverflowError
  | AttributeError.

Inductive outcome (A : Type) : Type :=
  | Ok (a : A)
  | Raise (e : exn).
Arguments Ok {A} a.
Arguments Raise {A} e.

#[export] Instance outcome_ret : MRet outcome := @Ok.
#[export] Instance outcome_bind : MBind outcome := λ A B k m,
  match m with
  | Ok a => k a
  | Raise e => Raise e
  end.

(** ** Numbers *)

Module Num.

(** The exact value of a finite float, as a rational. *)
Definition float_value (f : spec_float) : option Q :=
  match f with
  | S754_zero _ => Some 0%Q
  | S754_finite s m e =>
      let sm := if s then Z.neg m else Z.pos m in
      Some (if 0 <=? e then inject_Z (sm * 2 ^ e)
            else Qmake sm (Z.to_pos (2 ^ (- e))))
  | S754_infinity _ | S754_nan => None
  end.

Definition float_is_finite (f : spec_float) : bool :=
  match f with
  | S754_zero _ | S754_finite _ _ _ => true
  | S754_infinity _ | S754_nan => false
  end.

(** [x > k] for a float [x] and a Python int [k]: the comparison is made on
    the exact values; it is false for NaN. *)
Definition float_gt_int (x : spec_float) (k : Z) : bool :=
  match x with
  | S754_nan => false
  | S754_infinity s => negb s
  | S754_zero _ => k <? 0
  | S754_finite s m e =>
      let sm := if s then Z.neg m else Z.pos m in
      if 0 <=? e then k <? sm * 2 ^ e else k * 2 ^ (- e) <? sm
  end.

(** The double nearest to a positive integer [a], with sign [s]: [a] is
    rounded to 53 significant bits, ties to even; [None] when the result
    would exceed the largest double. *)
Definition float_of_magnitude (s : bool) (a : Z) : option spec_float :=
  let d := Z.log2 a + 1 in
  if d <=? 53 then Some (S754_finite s (Z.to_pos (a * 2 ^ (53 - d))) (d - 53))
  else
    let sh := d - 53 in
    let q := a / 2 ^ sh in
    let r := a mod 2 ^ sh in
    let half := 2 ^ (sh - 1) in
    let q' := if (half <? r) || ((r =? half) && Z.odd q) then q + 1 else q in
    let '(m, e) := if q' =? 2 ^ 53 then (2 ^ 52, sh + 1) else (q', sh) in
    if 1024 <? e + 53 then None else Some (S754_finite s (Z.to_pos m) e).

(** [float(z)] for a Python int; on [None] Python raises OverflowError. *)
Definition float_of_int (z : Z) : option spec_float :=
  match z with
  | Z0 => Some (S754_zero false)
  | _ => float_of_magnitude (z <? 0) (Z.abs z)
  end.

Definition digit (d : Z) : string :=
  String (ascii_of_N (48 + Z.to_N d)) EmptyString.

Definition decimal (z : Z) : string := NilZero.string_of_int (Z.to_int z).

(** [m * 2^e * 100] rounded to an integer, ties to even. *)
Definition hundredths (m : positive) (e : Z) : Z :=
  if 0 <=? e then Z.pos m * 2 ^ e * 100
  else
    let den := 2 ^ (- e) in
    let q := (Z.pos m * 100) / den in
    let r := (Z.pos m * 100) mod den in
    match 2 * r ?= den with
    | Lt => q
    | Gt => q + 1
    | Eq => if Z.even q then q else q + 1
    end.

Definition fixed2 (n : Z) : string :=
  decimal (n / 100) +:+ "." +:+ digit (n mod 100 / 10) +:+ digit (n mod 10).

(** [format(x, '.2f')] for a float: the exact value correctly rounded to two
    decimals; the sign is the float's sign bit, also for a zero result. *)
Definition float_format_2f (x : spec_float) : string :=
  match x with
  | S754_nan => "nan"
  | S754_infinity s => if s then "-inf" else "inf"
  | S754_zero s => (if s then "-" else "") +:+ "0.00"
  | S754_finite s m e => (if s then "-" else "") +:+ fixed2 (hundredths m e)
  end.

End Num.

Definition int_of_bool (b : bool) : Z := if b then 1 else 0.

(** [n_value > k] *)
Definition py_gt (n_value : pyval) (k : Z) : outcome bool :=
  match n_value with
  | PInt z => Ok (k <? z)
  | PBool b => Ok (k <? int_of_bool b)
  | PFloat f => Ok (Num.float_gt_int f k)
  | PNone | PStr _ | PList _ | PDict _ => Raise TypeError
  end.

(** [f"{n_value:.2f}"]: an int is converted to a float first. *)
Definition format_2f (n_value : pyval) : outcome string :=
  let of_int z :=
    match Num.float_of_int z with
    | Some f => Ok (Num.float_format_2f f)
    | None => Raise OverflowError
    end in
  match n_value with
  | PFloat f => Ok (Num.float_format_2f f)
  | PInt z => of_int z
  | PBool b => of_int (int_of_bool b)
  | PNone | PList _ | PDict _ => Raise TypeError
  | PStr _ => Raise ValueError
  end.

(** ** utils.py *)

Definition newline : string := String (ascii_of_N 10) EmptyString.

(** The lines of a triple-quoted literal, joined by line feeds. *)
Definition text_lines (ls : list string) : string := String.concat newline ls.

Definition high_text (v : string) : string := text_lines
  [ "";
    "            *High Nitrogen Required: " +:+ v +:+ "*";
    "            ";
    "            - Apply high-nitrogen fertilizers like Ammonium Nitrate or Urea";
    "            - Recommended application rate: 2.5-3.0 kg per acre";
    "            - Apply in split doses to prevent nitrogen runoff";
    "            - Monitor plants for signs of excess nitrogen (excessive vegetative growth)";
    "            - Consider soil testing before application";
    "            " ].

Definition moderate_high_text (v : string) : string := text_lines
  [ "";
    "            *Moderate-High Nitrogen Required: " +:+ v +:+ "*";
    "            ";
    "            - Apply balanced NPK fertilizer with higher N content (e.g., 20-10-10)";
    "            - Recommended application rate: 2.0-2.5 kg per acre";
    "            - Focus on slow-release nitrogen sources";
    "            - For leafy crops, consider foliar nitrogen application";
    "            - Monitor soil moisture to maximize nitrogen uptake";
    "            " ].

Definition moderate_text (v : string) : string := text_lines
  [ "";
    "            *Moderate Nitrogen Required: " +:+ v +:+ "*";
    "            ";
    "            - Apply balanced NPK fertilizer (e.g., 15-15-15)";
    "            - Recommended application rate: 1.5-2.0 kg per acre";
    "            - Incorporate organic matter to improve nitrogen retention";
    "            - Consider crop rotation with legumes in future planning";
    "            - Monitor for signs of nitrogen deficiency (yellowing of older leaves)";
    "            " ].

Definition low_moderate_text (v : string) : string := text_lines
  [ "";
    "            *Low-Moderate Nitrogen Required: " +:+ v +:+ "*";
    "            ";
    "            - Apply light nitrogen fertilization (e.g., 10-10-10)";
    "            - Recommended application rate: 1.0-1.5 kg per acre";
    "            - Consider organic alternatives like compost or manure";
    "            - Implement cover crops to build soil nitrogen naturally";
    "            - Avoid over-application which may lead to nutrient runoff";
    "            " ].

Definition soil_health_notes : string := text_lines
  [ "";
    "        ";
    "        *Additional Soil Health Recommendations:*";
    "        - Maintain proper soil pH (6.0-7.0) for optimal nutrient availability";
    "        - Ensure adequate soil moisture for nutrient uptake";
    "        - Consider micronutrient supplements if deficiency symptoms are present";
    "        - Practice sustainable soil management to improve long-term fertility";
    "        " ].

(** One row of the forecast frame, as [iterrows] yields it. *)
Record Row : Type := {
  date : string;
  predicted_value : pyval;
  lower_ci : pyval;
  upper_ci : pyval
}.

(** The body of the loop, up to the store into the dictionary: the
    if/elif/else chain and the soil health notes. *)
Definition recommendation_for (row : Row) : outcome string :=
  let n_value := predicted_value row in
  recommendation ←
    (c ← py_gt n_value 70;
     if c : bool then v ← format_2f n_value; mret (high_text v)
     else
       c ← py_gt n_value 55;
       if c : bool then v ← format_2f n_value; mret (moderate_high_text v)
       else
         c ← py_gt n_value 40;
         if c : bool then v ← format_2f n_value; mret (moderate_text v)
         else v ← format_2f n_value; mret (low_moderate_text v));
  mret (recommendation +:+ soil_health_notes).

(** A Python dict with string keys: insertion ordered; storing under a key
    that is present replaces the value and keeps the key's position. *)
Definition dict : Type := list (string * string).

Fixpoint dict_set (k v : string) (d : dict) : dict :=
  match d with
  | [] => [(k, v)]
  | (k', v') :: rest =>
      if String.eqb k k' then (k', v) :: rest else (k', v') :: dict_set k v rest
  end.

Fixpoint dict_get (k : string) (d : dict) : option string :=
  match d with
  | [] => None
  | (k', v') :: rest => if String.eqb k k' then Some v' else dict_get k rest
  end.

Definition keys (d : dict) : list string := map fst d.

Fixpoint fill_recommendations (rows : list Row) (recommendations : dict)
  : outcome dict :=
  match rows with
  | [] => mret recommendations
  | row :: rest =>
      let month := date row in
      recommendation ← recommendation_for row;
      fill_recommendations rest (dict_set month recommendation recommendations)
  end.

Definition generate_recommendations (forecast_df : list Row) : outcome dict :=
  fill_recommendations forecast_df [].

(** The branch the if/elif/else chain takes, as a value of its own. *)
Inductive band : Type := LowModerate | Moderate | ModerateHigh | High.

Definition band_rank (b : band) : nat :=
  match b with LowModerate => 0 | Moderate => 1 | ModerateHigh => 2 | High => 3 end.

Definition band_le (b1 b2 : band) : Prop := (band_rank b1 <= band_rank b2)%nat.

Definition band_of (n_value : pyval) : outcome band :=
  c ← py_gt n_value 70;
  if c : bool then mret High
  else
    c ← py_gt n_value 55;
    if c : bool then mret ModerateHigh
    else
      c ← py_gt n_value 40;
      if c : bool then mret Moderate else mret LowModerate.

Definition band_text (b : band) (v : string) : string :=
  match b with
  | High => high_text v
  | ModerateHigh => moderate_high_text v
  | Moderate => moderate_text v
  | LowModerate => low_moderate_text v
  end.

Definition band_label (b : band) : string :=
  match b with
  | High => "High Nitrogen"
  | ModerateHigh => "Moderate-High"
  | Moderate => "Moderate Nitrogen"
  | LowModerate => "Low-Moderate"
  end.

(** [needle in hay] *)
Definition contains (needle hay : string) : Prop :=
  ∃ pre post, hay = pre +:+ needle +:+ post.

Definition ends_with (suffix s : string) : Prop :=
  ∃ pre, s = pre +:+ suffix.

(** The numeric domain of the generator: a finite float64, or an integer
    that has a finite double, which is every integer of magnitude below
    [2 ^ 1024 - 2 ^ 970] and so every 64-bit one. *)
Definition finite_number (v : pyval) : Prop :=
  match v with
  | PFloat f => Num.float_is_finite f = true
  | PInt z => Z.abs z < 2 ^ 1024 - 2 ^ 970
  | _ => False
  end.

Definition number_value (v : pyval) : option Q :=
  match v with
  | PFloat f => Num.float_value f
  | PInt z => Some (inject_Z z)
  | _ => None
  end.

(** ** The generator on a store of objects

    The call receives a reference to the caller's frame, builds its
    dictionary as a new object and returns a reference to it. *)
Module Store.

Definition loc : Type := positive.

Inductive object : Type :=
  | OFrame (rows : list Row)
  | ODict (d : dict).

Definition prog (A : Type) : Type :=
  gmap loc object → outcome A * gmap loc object.

#[global] Instance prog_ret : MRet prog := λ A a h, (Ok a, h).
#[global] Instance prog_bind : MBind prog := λ A B k m h,
  match m h with
  | (Ok a, h') => k a h'
  | (Raise e, h') => (Raise e, h')
  end.

Definition lift {A} (m : outcome A) : prog A := λ h, (m, h).

(** [{}] *)
Definition new_dict : prog loc := λ h,
  let l := fresh (dom h) in (Ok l, <[l := ODict []]> h).

(** [forecast_df.iterrows()]: the rows, each a copy of the frame's data. *)
Definition iterrows (forecast_df : loc) : prog (list Row) := λ h,
  match h !! forecast_df with
  | Some (OFrame rows) => (Ok rows, h)
  | _ => (Raise AttributeError, h)
  end.

(** [recommendations[month] = recommendation] *)
Definition setitem (recommendations : loc) (month recommendation : string)
  : prog unit := λ h,
  match h !! recommendations with
  | Some (ODict d) =>
      (Ok tt, <[recommendations := ODict (dict_set month recommendation d)]> h)
  | _ => (Raise TypeError, h)
  end.

Fixpoint for_rows (rows : list Row) (recommendations : loc) : prog unit :=
  match rows with
  | [] => mret tt
  | row :: rest =>
      let month := date row in
      recommendation ← lift (recommendation_for row);
      _ ← setitem recommendations month recommendation;
      for_rows rest recommendations
  end.

Definition generate_recommendations (forecast_df : loc) : prog loc :=
  recommendations ← new_dict;
  rows ← iterrows forecast_df;
  _ ← for_rows rows recommendations;
  mret recommendations.

(** What a returned reference holds. *)
Definition returned (r : outcome loc * gmap loc object) : outcome dict :=
  match r with
  | (Ok l, h) =>
      match h !! l with
      | Some (ODict d) => Ok d
      | _ => Raise TypeError
      end
  | (Raise e, _) => Raise e
  end.

End Store.

(** ** app.py: fetching the forecast *)

(** What the page shows, in the order it is written. *)
Inductive ui_event : Type :=
  | st_subheader (text : string)
  | st_markdown (text : string)
  | st_error (text : string)
  | st_info (text : string)
  | st_plotly_chart
  | st_dataframe
  | st_expander (title body : string).

(** Script code: what it has shown so far, and its result or exception. *)
Definition ui (A : Type) : Type := list ui_event * outcome A.

#[export] Instance ui_ret : MRet ui := λ A a, ([], Ok a).
#[export] Instance ui_bind : MBind ui := λ A B k m,
  match m with
  | (shown, Ok a) => let '(shown', r) := k a in (shown ++ shown', r)
  | (shown, Raise e) => (shown, Raise e)
  end.

Definition show (e : ui_event) : ui unit := ([e], Ok tt).
Definition run {A} (m : outcome A) : ui A := ([], m).

(** The answer to [requests.get]: the status code and what
    [response.json()] gives, the parsed body or the text of the decoding
    error it raises. *)
Record response : Type := {
  status_code : Z;
  json : string + pyval
}.

(** [requests.get] returns a response or raises; of an exception the code
    uses its text only. *)
Definition request : Type := (string + response)%type.

Definition get_forecast (requests_get : request) : ui pyval :=
  match requests_get with
  | inr response =>
      if status_code response =? 200 then
        match json response with
        | inr body => mret body
        | inl e => _ ← show (st_error ("Error connecting to API: " +:+ e)); mret PNone
        end
      else
        _ ← show (st_error ("Error fetching forecast: "
                            +:+ Num.decimal (status_code response)));
        mret PNone
  | inl e => _ ← show (st_error ("Error connecting to API: " +:+ e)); mret PNone
  end.

(** ** app.py: the forecast tab *)

(** [if forecast_data:] *)
Definition truthy (v : pyval) : bool :=
  match v with
  | PNone => false
  | PBool b => b
  | PInt z => negb (z =? 0)
  | PFloat (S754_zero _) => false
  | PFloat _ => true
  | PStr s => negb (String.eqb s "")
  | PList items => match items with [] => false | _ => true end
  | PDict fields => match fields with [] => false | _ => true end
  end.

(** A parsed object binds each key once. *)
Fixpoint lookup_field (k : string) (fields : list (string * pyval)) : option pyval :=
  match fields with
  | [] => None
  | (k', v) :: rest => if String.eqb k k' then Some v else lookup_field k rest
  end.

(** [forecast_data['forecast']] *)
Definition getitem (v : pyval) (k : string) : outcome pyval :=
  match v with
  | PDict fields =>
      match lookup_field k fields with
      | Some x => Ok x
      | None => Raise (KeyError k)
      end
  | _ => Raise TypeError
  end.

(** A frame before it has its date column: named columns, and per row the
    cells by column name. *)
Record Frame : Type := {
  columns : list string;
  rows : list (list (string * pyval))
}.

(** The frame once the date column is assigned: each row with its label. *)
Record DatedFrame : Type := {
  dated_columns : list string;
  dated_rows : list (string * list (string * pyval))
}.

Definition nan : pyval := PFloat S754_nan.

(** A cell the row has no entry for is NaN. *)
Definition cell (c : string) (row : list (string * pyval)) : pyval :=
  default nan (lookup_field c row).

(** What pandas does and this repository does not define. The two laws are
    those the forecast tab depends on: a frame built from a list has one row
    per item, and the frame built from the empty list has no column. *)
Class Pandas : Type := {
  pd_DataFrame : pyval → outcome Frame;
  series_round : list pyval → outcome (list pyval);
  DataFrame_rows : ∀ items df,
    pd_DataFrame (PList items) = Ok df → length (rows df) = length items;
  DataFrame_empty : pd_DataFrame (PList []) = Ok {| columns := []; rows := [] |}
}.

(** [forecast_df['date'] = labels]: a frame with no row takes its index from
    the labels; otherwise the lengths have to match. *)
Definition set_date (df : Frame) (labels : list string) : outcome DatedFrame :=
  let cols := if bool_decide ("date" ∈ columns df) then columns df
              else columns df ++ ["date"] in
  match rows df, labels with
  | [], _ :: _ =>
      Ok {| dated_columns := cols; dated_rows := map (λ l, (l, [])) labels |}
  | _, _ =>
      if (length (rows df) =? length labels)%nat
      then Ok {| dated_columns := cols; dated_rows := combine labels (rows df) |}
      else Raise ValueError
  end.

(** [forecast_df[c]] *)
Definition column (df : DatedFrame) (c : string) : outcome (list pyval) :=
  if bool_decide (c ∈ dated_columns df) then
    Ok (map (λ r, if String.eqb c "date" then PStr (fst r) else cell c (snd r))
            (dated_rows df))
  else Raise (KeyError c).

(** [forecast_df.iterrows()] *)
Definition iterrows (df : DatedFrame) : list Row :=
  map (λ r, {| date := fst r;
               predicted_value := cell "predicted_value" (snd r);
               lower_ci := cell "lower_ci" (snd r);
               upper_ci := cell "upper_ci" (snd r) |})
      (dated_rows df).

(** [[f"Month {i+1}" for i in range(6)]] *)
Definition month_labels : list string :=
  map (λ i, "Month " +:+ Num.decimal (Z.of_nat i + 1)) (seq 0 6).

Fixpoint show_recommendations (recommendations : dict) : ui unit :=
  match recommendations with
  | [] => mret tt
  | (month, rec) :: rest =>
      _ ← show (st_expander ("Recommendation for " +:+ month) rec);
      show_recommendations rest
  end.

Definition tab4 `{Pandas} (requests_get : request) : ui unit :=
  _ ← show (st_subheader "Forecasted Fertilizer Requirements");
  forecast_data ← get_forecast requests_get;
  if truthy forecast_data then
    forecast_results ← run (getitem forecast_data "forecast");
    forecast_df ← run (pd_DataFrame forecast_results);
    forecast_df ← run (set_date forecast_df month_labels);
    (* the chart: forecast and confidence interval *)
    _ ← run (column forecast_df "date");
    _ ← run (column forecast_df "predicted_value");
    _ ← run (column forecast_df "date");
    _ ← run (column forecast_df "date");
    _ ← run (column forecast_df "upper_ci");
    _ ← run (column forecast_df "lower_ci");
    _ ← show st_plotly_chart;
    (* the two tables *)
    _ ← show (st_subheader "Predicted Values");
    n_value ← run (column forecast_df "predicted_value");
    _ ← run (series_round n_value);
    _ ← show st_dataframe;
    _ ← show (st_subheader "Confidence Intervals");
    lower ← run (column forecast_df "lower_ci");
    upper ← run (column forecast_df "upper_ci");
    _ ← run (series_round lower);
    _ ← run (series_round upper);
    _ ← show st_dataframe;
    _ ← show (st_subheader "Fertilizer Recommendations");
    _ ← show (st_markdown (text_lines
           [ "";
             "            Based on the forecast, here are the recommended actions for the upcoming months:";
             "            " ]));
    recommendations ← run (generate_recommendations (iterrows forecast_df));
    show_recommendations recommendations
  else
    _ ← show (st_error "Unable to get forecast data. Make sure the API server is running.");
    show (st_info (text_lines
      [ "";
        "            To start the API server, run the following command in a terminal:";
        "            ";
        "            uvicorn main:app --host 0.0.0.0 --port 8000";
        "            ";
        "            " ])).

(** A constructor for frames from lists of records, columns in order of first
    appearance; it rejects any other data. It serves as an instance to run
    the forecast tab on. *)
Definition record_fields (item : pyval) : option (list (string * pyval)) :=
  match item with PDict fields => Some fields | _ => None end.

Fixpoint all_records (items : list pyval) : option (list (list (string * pyval))) :=
  match items with
  | [] => Some []
  | item :: rest =>
      fields ← record_fields item;
      recs ← all_records rest;
      Some (fields :: recs)
  end.

Definition add_column (cols : list string) (c : string) : list string :=
  if bool_decide (c ∈ cols) then cols else cols ++ [c].

Definition frame_of_records (data : pyval) : outcome Frame :=
  match data with
  | PList items =>
      match all_records items with
      | Some recs =>
          Ok {| columns := foldl add_column [] (map fst (concat recs));
                rows := recs |}
      | None => Raise ValueError
      end
  | _ => Raise ValueError
  end.

(** The constructor from lists of records as an instance, with a rounding
    that leaves the cells as they are. *)
#[export] Instance records_pandas : Pandas.
Proof.
  refine {| pd_DataFrame := frame_of_records; series_round := λ cells, Ok cells |}.
  - intros items df. unfold frame_of_records.
    destruct (all_records items) as [recs |] eqn:Hrecs; [| discriminate].
    intros [= <-]. simpl. revert recs Hrecs.
    induction items as [| item items IH]; intros recs; simpl.
    + by intros [= <-].
    + destruct (record_fields item) as [fields |]; simpl; [| discriminate].
      destruct (all_records items) as [recs' |]; simpl; [| discriminate].
      intros [= <-]. simpl. by rewrite (IH recs').
  - reflexivity.
Defined.

(** A response with status 200 and a body that decodes. *)
Definition ok_200 (body : pyval) : request :=
  inr {| status_code := 200; json := inr body |}.

(** A record of the forecast list. *)
Definition forecast_record (v lo hi : spec_float) : pyval :=
  PDict [("predicted_value", PFloat v); ("lower_ci", PFloat lo); ("upper_ci", PFloat hi)].

(** ** Notions the properties are stated with *)

(** The period labels in order of first occurrence. *)
Definition add_key (ks : list string) (k : string) : list string :=
  if bool_decide (k ∈ ks) then ks else ks ++ [k].

Definition distinct_labels (labels : list string) : list string :=
  foldl add_key [] labels.

(** The texts of all rows, or the first exception. *)
Fixpoint texts_of (rows : list Row) : outcome (list string) :=
  match rows with
  | [] => mret []
  | row :: rest =>
      t ← recommendation_for row;
      ts ← texts_of rest;
      mret (t :: ts)
  end.

Definition store_all (kvs : list (string * string)) (d : dict) : dict :=
  foldl (λ d kv, dict_set kv.1 kv.2 d) d kvs.

(** The last binding of a key in a list of stores. *)
Definition last_binding (k : string) (kvs : list (string * string)) : option string :=
  foldl (λ o kv, if String.eqb k kv.1 then Some kv.2 else o) None kvs.

(** ** Sample data *)

(** The doubles 70.0, 55.0 and 40.0, and the double nearest to 70.01. *)
Definition f70 : spec_float := S754_finite false 4925812092436480 (-46).
Definition f55 : spec_float := S754_finite false 7740561859543040 (-47).
Definition f40 : spec_float := S754_finite false 5629499534213120 (-47).
Definition f70_01 : spec_float := S754_finite false 4926515779878257 (-46).

(** 82.5, 61.25, 47.5, 12.75, -3.5 and 30.0 *)
Definition f82_5 : spec_float := S754_finite false 5805421394657280 (-46).
Definition f61_25 : spec_float := S754_finite false 8620171161763840 (-47).
Definition f47_5 : spec_float := S754_finite false 6685030696878080 (-47).
Definition f12_75 : spec_float := S754_finite false 7177611906121728 (-49).
Definition fm3_5 : spec_float := S754_finite true 7881299347898368 (-51).
Definition f30 : spec_float := S754_finite false 8444249301319680 (-48).

Definition forecast_row (label : string) (v lo hi : spec_float) : Row :=
  {| date := label; predicted_value := PFloat v;
     lower_ci := PFloat lo; upper_ci := PFloat hi |}.

(** A forecast of six months, one row in each band and two more. *)
Definition six_months : list Row :=
  [ forecast_row "Month 1" f82_5 f70 f82_5;
    forecast_row "Month 2" f70 f55 f82_5;
    forecast_row "Month 3" f47_5 f40 f55;
    forecast_row "Month 4" f12_75 fm3_5 f30;
    forecast_row "Month 5" fm3_5 fm3_5 f12_75;
    forecast_row "Month 6" f70_01 f61_25 f82_5 ].

(** ** Further notions *)

(** The text of [st.info] in the forecast tab. *)
Definition api_instructions : string := text_lines
  [ "";
    "            To start the API server, run the following command in a terminal:";
    "            ";
    "            uvicorn main:app --host 0.0.0.0 --port 8000";
    "            ";
    "            " ].

Definition unable_message : string :=
  "Unable to get forecast data. Make sure the API server is running.".

(** The fetch did not give a body: a transport error, a status other than
    200, or a body that does not decode. *)
Definition fetch_failed (requests_get : request) : Prop :=
  match requests_get with
  | inl _ => True
  | inr response =>
      status_code response ≠ 200 ∨ ∃ e, json response = inl e
  end.

(** Some record of the list carries the key. *)
Definition has_column (c : string) (recs : list (list (string * pyval))) : Prop :=
  Exists (λ rec, is_Some (lookup_field c rec)) recs.

(** What the page shows for a forecast before the recommendations. *)
Definition forecast_charts : list ui_event :=
  [ st_subheader "Forecasted Fertilizer Requirements";
    st_plotly_chart;
    st_subheader "Predicted Values"; st_dataframe;
    st_subheader "Confidence Intervals"; st_dataframe;
    st_subheader "Fertilizer Recommendations";
    st_markdown (text_lines
      [ "";
        "            Based on the forecast, here are the recommended actions for the upcoming months:";
        "            " ]) ].

(** Is the cell something other than a number? *)
Definition not_a_number (v : pyval) : Prop :=
  match v with
  | PNone | PStr _ | PList _ | PDict _ => True
  | PBool _ | PInt _ | PFloat _ => False
  end.

(** Is every record complete, with floats for the three numbers? *)
Definition float_record (rec : list (string * pyval)) : Prop :=
  ∀ c, c ∈ ["predicted_value"; "lower_ci"; "upper_ci"] →
       ∃ f, lookup_field c rec = Some (PFloat f).

(** Reading a printed number back: the text before the first point and the
    text after it. *)
Fixpoint split_point (s : string) : option (string * string) :=
  match s with
  | EmptyString => None
  | String c rest =>
      if Ascii.eqb c "." then Some (EmptyString, rest)
      else match split_point rest with
           | Some (whole, frac) => Some (String c whole, frac)
           | None => None
           end
  end.

(** The number that a text such as [-12.34] denotes, counted in hundredths:
    the text is an optional minus sign, a decimal numeral, a point and
    exactly two digits. *)
Definition read_hundredths (s : string) : option Z :=
  let '(negative, body) :=
    match s with
    | String "-" rest => (true, rest)
    | _ => (false, s)
    end in
  match split_point body with
  | Some (whole, frac) =>
      match NilZero.uint_of_string whole, NilZero.uint_of_string frac with
      | Some w, Some f =>
          if (String.length frac =? 2)%nat then
            let n := Z.of_uint w * 100 + Z.of_uint f in
            Some (if negative then - n else n)
          else None
      | _, _ => None
      end
  | None => None
  end.

(** [n] is the integer nearest to [x]; the even one when [x] is halfway
    between two integers. *)
Definition nearest_integer (x : Q) (n : Z) : Prop :=
  (inject_Z n - (1 # 2) <= x)%Q ∧ (x <= inject_Z n + (1 # 2))%Q ∧
  ((x == inject_Z n - (1 # 2) ∨ x == inject_Z n + (1 # 2))%Q → Z.even n = true).

(** The heading of a band's block, with the place of the value in it. *)
Definition heading (b : band) (v : string) : string :=
  "*" +:+ match b with
          | High => "High"
          | ModerateHigh => "Moderate-High"
          | Moderate => "Moderate"
          | LowModerate => "Low-Moderate"
          end +:+ " Nitrogen Required: " +:+ v +:+ "*".

(** Texts made of decimal digits only. *)
Definition digit_char (c : ascii) : Prop :=
  c ∈ ["0"; "1"; "2"; "3"; "4"; "5"; "6"; "7"; "8"; "9"]%char.

Fixpoint digit_string (s : string) : Prop :=
  match s with
  | EmptyString => True
  | String c rest => digit_char c ∧ digit_string rest
  end.

(** ** Numbers: the comparison and the formatting *)

Lemma float_gt_int_value (f : spec_float) (k : Z) (q : Q) :
  Num.float_value f = Some q →
  Num.float_gt_int f k = true ↔ (inject_Z k < q)%Q.
Proof.
  destruct f as [s | s | | s m e]; simpl; try discriminate.
  - intros [= <-]. rewrite Z.ltb_lt. unfold Qlt; simpl. lia.
  - intros [= <-]. destruct (Z.leb_spec 0 e) as [He | He].
    + rewrite Z.ltb_lt, <- Zlt_Qlt. reflexivity.
    + rewrite Z.ltb_lt. unfold Qlt; simpl.
      rewrite Z2Pos.id by (apply Z.pow_pos_nonneg; lia). lia.
Qed.

(** The conversion fails on exactly the magnitudes that are nearer to
    [2 ^ 1024] than to the largest double, or beyond. *)
Lemma float_of_magnitude_overflow (s : bool) (a : Z) :
  0 < a →
  Num.float_of_magnitude s a = None ↔ 2 ^ 1024 - 2 ^ 970 <= a.
Proof.
  intros Ha.
  assert (Hbound : 2 ^ 1023 < 2 ^ 1024 - 2 ^ 970) by reflexivity.
  unfold Num.float_of_magnitude. set (d := Z.log2 a + 1).
  assert (Hd : 2 ^ (d - 1) <= a < 2 ^ d).
  { subst d. replace (Z.log2 a + 1 - 1) with (Z.log2 a) by lia.
    replace (Z.log2 a + 1) with (Z.succ (Z.log2 a)) by lia.
    apply Z.log2_spec; lia. }
  assert (Hd1 : 1 <= d) by (subst d; pose proof (Z.log2_nonneg a); lia).
  clearbody d.
  destruct (Z.leb_spec d 53) as [Hsmall | Hbig].
  { split; [discriminate |]. intros Hle. exfalso.
    assert (2 ^ d <= 2 ^ 1023) by (apply Z.pow_le_mono_r; lia). lia. }
  set (sh := d - 53) in *.
  assert (Hsh : sh = d - 53) by reflexivity.
  set (P := 2 ^ sh). set (half := 2 ^ (sh - 1)).
  assert (HP : P = 2 * half).
  { subst P half. replace sh with (Z.succ (sh - 1)) at 1 by lia.
    apply Z.pow_succ_r; lia. }
  assert (Hhalf : 0 < half) by (apply Z.pow_pos_nonneg; lia).
  assert (Hd' : 2 ^ d = P * 2 ^ 53).
  { subst P sh. rewrite <- Z.pow_add_r by lia. f_equal; lia. }
  assert (Hd'' : 2 ^ (d - 1) = P * 2 ^ 52).
  { subst P sh. rewrite <- Z.pow_add_r by lia. f_equal; lia. }
  pose proof (Z.div_mod a P ltac:(lia)) as Hdiv.
  pose proof (Z.mod_pos_bound a P ltac:(lia)) as Hmod.
  set (q := a / P) in *. set (r := a mod P) in *.
  assert (Hq : 2 ^ 52 <= q < 2 ^ 53) by nia.
  assert (Hlarge : 1024 <= d → 2 ^ 1024 - 2 ^ 970 <= 2 ^ d - half).
  { intros Hge. subst half sh.
    replace (2 ^ d) with (2 ^ 1024 * 2 ^ (d - 1024))
      by (rewrite <- Z.pow_add_r by lia; f_equal; lia).
    replace (2 ^ (d - 53 - 1)) with (2 ^ 970 * 2 ^ (d - 1024))
      by (rewrite <- Z.pow_add_r by lia; f_equal; lia).
    assert (1 <= 2 ^ (d - 1024)) by (apply (Z.pow_le_mono_r 2 0); lia).
    nia. }
  assert (Hlow : d < 1024 → a < 2 ^ 1024 - 2 ^ 970).
  { intros Hlt. assert (2 ^ d <= 2 ^ 1023) by (apply Z.pow_le_mono_r; lia). lia. }
  assert (Hhuge : 1024 < d → 2 ^ 1024 - 2 ^ 970 <= a).
  { intros Hgt.
    assert (2 ^ 1024 <= 2 ^ (d - 1)) by (apply Z.pow_le_mono_r; lia). lia. }
  assert (H1024 : d = 1024 → P = 2 ^ 971 ∧ half = 2 ^ 970)
    by (intros ->; subst P half sh; split; reflexivity).
  set (c := (half <? r) || ((r =? half) && Z.odd q)).
  assert (Hup : c = true → half <= r).
  { subst c. destruct (Z.ltb_spec half r), (Z.eqb_spec r half); simpl;
      intros; try discriminate; lia. }
  assert (Hdown : c = false → r < half ∨ (r = half ∧ q ≠ 2 ^ 53 - 1)).
  { subst c. destruct (Z.ltb_spec half r), (Z.eqb_spec r half),
      (Z.odd q) eqn:Hodd; simpl; intros; try discriminate;
      [right; split; [assumption | by intros ->] | left; lia | left; lia]. }
  clearbody c sh P half q r.
  destruct c; [specialize (Hup eq_refl); clear Hdown
              | specialize (Hdown eq_refl); clear Hup].
  all: match goal with
       | |- context [?x =? 2 ^ 53] => destruct (Z.eqb_spec x (2 ^ 53))
       end.
  all: match goal with |- context [1024 <? ?x] => destruct (Z.ltb_spec 1024 x) end.
  all: (split; [intros _ | reflexivity])
       || (split; [discriminate | intros Hle; exfalso]).
  all: destruct (Z.lt_trichotomy d 1024) as [Hlt | [Heq | Hgt]].
  all: try (specialize (Hlow Hlt)); try (specialize (Hhuge Hgt)); try lia.
  all: try (destruct (H1024 Heq) as [-> ->]; lia).
  all: try (assert (1024 <= d) as Hge by lia; specialize (Hlarge Hge); nia).
Qed.

(** [float] raises on exactly the integers that have no finite double. *)
Lemma float_of_int_overflow (z : Z) :
  Num.float_of_int z = None ↔ 2 ^ 1024 - 2 ^ 970 <= Z.abs z.
Proof.
  destruct z as [| p | p]; simpl.
  - split; [discriminate |]. intros H. exfalso. revert H. by apply Z.lt_nge.
  - by apply float_of_magnitude_overflow.
  - by apply float_of_magnitude_overflow.
Qed.

Lemma float_of_int_finite (z : Z) :
  Z.abs z < 2 ^ 1024 - 2 ^ 970 → ∃ f, Num.float_of_int z = Some f.
Proof.
  intros Hz. destruct (Num.float_of_int z) as [f |] eqn:Hf; [eauto |].
  apply float_of_int_overflow in Hf. lia.
Qed.

(** The 64-bit integers are in the domain. *)
Lemma machine_int_finite (z : Z) :
  - 2 ^ 63 <= z < 2 ^ 64 → finite_number (PInt z).
Proof.
  intros Hz. simpl. assert (2 ^ 64 < 2 ^ 1024 - 2 ^ 970) by reflexivity. lia.
Qed.

(** An integer of at most 53 bits converts to the double of the same value. *)
Lemma float_of_int_exact (z : Z) :
  Z.abs z < 2 ^ 53 →
  ∃ f, Num.float_of_int z = Some f ∧
       ∃ q, Num.float_value f = Some q ∧ (q == inject_Z z)%Q.
Proof.
  intros Hz. unfold Num.float_of_int, Num.float_of_magnitude.
  destruct z as [| p | p]; [by exists (S754_zero false); split; [| exists 0%Q] | |].
  all: set (a := Z.abs _); set (d := Z.log2 a + 1).
  all: assert (Ha : 0 < a < 2 ^ 53) by (subst a; lia).
  all: assert (Hd : 0 < d <= 53)
    by (subst d; pose proof (Z.log2_nonneg a);
        assert (Z.log2 a < 53) by (apply Z.log2_lt_pow2; lia); lia).
  all: destruct (Z.leb_spec d 53) as [_ |]; [| lia].
  all: assert (Hpow : 0 < 2 ^ (53 - d)) by (apply Z.pow_pos_nonneg; lia).
  all: eexists; split; [reflexivity |]; simpl.
  all: destruct (Z.leb_spec 0 (d - 53)) as [He | He].
  all: eexists; split; [reflexivity |].
  all: unfold Qeq; simpl.
  all: rewrite <- ?Pos2Z.opp_pos, ?Z2Pos.id by lia.
  all: try (assert (d = 53) as -> by lia; simpl Z.sub).
  all: try replace (- (d - 53)) with (53 - d) by lia.
  all: subst a; simpl Z.abs in *; lia.
Qed.

Lemma py_gt_value (v : pyval) (k : Z) (q : Q) :
  number_value v = Some q →
  ∃ c, py_gt v k = Ok c ∧ (c = true ↔ (inject_Z k < q)%Q).
Proof.
  destruct v; simpl; try discriminate.
  - intros [= <-]. eexists; split; [reflexivity |].
    by rewrite Z.ltb_lt, <- Zlt_Qlt.
  - intros Hq. eexists; split; [reflexivity |]. by apply float_gt_int_value.
Qed.

Lemma format_2f_finite (v : pyval) :
  finite_number v → ∃ s, format_2f v = Ok s.
Proof.
  destruct v; simpl; try tauto; [| eauto].
  intros Hz. destruct (float_of_int_finite z Hz) as [f ->]. eauto.
Qed.

Lemma number_value_finite (v : pyval) :
  finite_number v → ∃ q, number_value v = Some q.
Proof.
  destruct v as [| | | f | | |]; simpl; try tauto; [eauto |].
  destruct f; simpl; try discriminate; eauto.
Qed.

(** The loop body is the band, the formatted value, and the text of the
    band followed by the soil health notes. *)
Lemma recommendation_for_band (row : Row) :
  recommendation_for row =
    (b ← band_of (predicted_value row);
     v ← format_2f (predicted_value row);
     mret (band_text b v +:+ soil_health_notes)).
Proof.
  unfold recommendation_for, band_of.
  destruct (py_gt (predicted_value row) 70) as [[] |]; simpl; [| | reflexivity].
  { destruct (format_2f _); reflexivity. }
  destruct (py_gt (predicted_value row) 55) as [[] |]; simpl; [| | reflexivity].
  { destruct (format_2f _); reflexivity. }
  destruct (py_gt (predicted_value row) 40) as [[] |]; simpl; [| | reflexivity].
  all: destruct (format_2f _); reflexivity.
Qed.

Lemma band_of_value (v : pyval) (q : Q) :
  number_value v = Some q →
  ∃ b, band_of v = Ok b ∧
    (b = High ↔ (70 < q)%Q) ∧
    (b = ModerateHigh ↔ (55 < q ∧ q <= 70)%Q) ∧
    (b = Moderate ↔ (40 < q ∧ q <= 55)%Q) ∧
    (b = LowModerate ↔ (q <= 40)%Q).
Proof.
  intros Hq. unfold band_of.
  destruct (py_gt_value v 70 q Hq) as (c70 & -> & H70).
  destruct (py_gt_value v 55 q Hq) as (c55 & -> & H55).
  destruct (py_gt_value v 40 q Hq) as (c40 & -> & H40).
  change (inject_Z 70) with 70%Q in H70.
  change (inject_Z 55) with 55%Q in H55.
  change (inject_Z 40) with 40%Q in H40.
  simpl.
  destruct c70; simpl; [| destruct c55; simpl; [| destruct c40; simpl]].
  all: eexists; split; [reflexivity |].
  all: repeat match goal with
         | H : true = true ↔ _ |- _ => apply proj1 in H; specialize (H eq_refl)
         | H : false = true ↔ ?P |- _ =>
             assert (¬ P) by (intros ?; apply proj2 in H; discriminate H; assumption);
             clear H
         end.
  all: repeat split; try discriminate; intros; try lra.
Qed.

(** ** The advisory text *)

Lemma append_assoc (s1 s2 s3 : string) : (s1 +:+ s2) +:+ s3 = s1 +:+ s2 +:+ s3.
Proof. induction s1 as [| c s1 IH]; [reflexivity | by simpl; f_equal]. Qed.

Lemma contains_append_r (needle hay s : string) :
  contains needle hay → contains needle (hay +:+ s).
Proof.
  intros (pre & post & ->). exists pre, (post +:+ s).
  by rewrite !append_assoc.
Qed.

Lemma band_text_label (b : band) (v : string) :
  contains (band_label b) (band_text b v).
Proof.
  exists (newline +:+ "            *").
  destruct b; eexists; cbn; rewrite ?append_assoc; reflexivity.
Qed.

Lemma band_text_value (b : band) (v : string) :
  contains v (band_text b v).
Proof.
  destruct b.
  - exists (newline +:+ "            *Low-Moderate Nitrogen Required: ").
    eexists; cbn; rewrite ?append_assoc; reflexivity.
  - exists (newline +:+ "            *Moderate Nitrogen Required: ").
    eexists; cbn; rewrite ?append_assoc; reflexivity.
  - exists (newline +:+ "            *Moderate-High Nitrogen Required: ").
    eexists; cbn; rewrite ?append_assoc; reflexivity.
  - exists (newline +:+ "            *High Nitrogen Required: ").
    eexists; cbn; rewrite ?append_assoc; reflexivity.
Qed.

(** ** The dictionary *)

Lemma keys_dict_set (k v : string) (d : dict) :
  keys (dict_set k v d) = add_key (keys d) k.
Proof.
  unfold add_key, keys. induction d as [| [k' v'] d IH]; cbn [dict_set map fst].
  - rewrite bool_decide_eq_false_2; [reflexivity | set_solver].
  - destruct (String.eqb_spec k k') as [-> | Hne]; cbn [map fst].
    + rewrite bool_decide_eq_true_2; [reflexivity | set_solver].
    + rewrite IH. case_bool_decide as Hin.
      * rewrite bool_decide_eq_true_2; [reflexivity | set_solver].
      * rewrite bool_decide_eq_false_2; [reflexivity | set_solver].
Qed.

Lemma dict_get_set (k k' v : string) (d : dict) :
  dict_get k' (dict_set k v d) = if String.eqb k' k then Some v else dict_get k' d.
Proof.
  induction d as [| [k0 v0] d IH]; simpl.
  - destruct (String.eqb k' k); reflexivity.
  - destruct (String.eqb_spec k k0) as [-> | Hne]; simpl.
    + destruct (String.eqb k' k0); reflexivity.
    + rewrite IH. destruct (String.eqb_spec k' k0) as [-> | Hne']; [| reflexivity].
      destruct (String.eqb_spec k0 k); congruence.
Qed.

Lemma dict_get_key (k : string) (d : dict) :
  k ∈ keys d → is_Some (dict_get k d).
Proof.
  unfold keys. induction d as [| [k0 v0] d IH]; simpl.
  - by intros ?%not_elem_of_nil.
  - destruct (String.eqb_spec k k0) as [-> | Hne]; [eauto |].
    intros [? | ?]%elem_of_cons; [done | by apply IH].
Qed.

Lemma keys_store_all (kvs : list (string * string)) (d : dict) :
  keys (store_all kvs d) = foldl add_key (keys d) (kvs.*1).
Proof.
  revert d. induction kvs as [| [k v] kvs IH]; intros d; simpl; [reflexivity |].
  unfold store_all in *; simpl. by rewrite IH, keys_dict_set.
Qed.

Lemma dict_get_store_all (k : string) (kvs : list (string * string)) (d : dict) :
  dict_get k (store_all kvs d) =
    match last_binding k kvs with
    | Some t => Some t
    | None => dict_get k d
    end.
Proof.
  unfold last_binding.
  assert (G : ∀ o, foldl (λ o kv, if String.eqb k kv.1 then Some kv.2 else o) o kvs
             = match foldl (λ o kv, if String.eqb k kv.1 then Some kv.2 else o) None kvs with
               | Some t => Some t
               | None => o
               end).
  { induction kvs as [| [k0 v0] kvs IH]; intros o; simpl; [reflexivity |].
    rewrite IH, (IH (if String.eqb k k0 then _ else _)).
    destruct (String.eqb k k0), (foldl _ None kvs); reflexivity. }
  rewrite <- G. clear G. revert d.
  induction kvs as [| [k0 v0] kvs IH]; intros d; simpl; [reflexivity |].
  unfold store_all in *; simpl. by rewrite IH, dict_get_set.
Qed.

Lemma add_key_NoDup (ks : list string) (k : string) :
  NoDup ks → NoDup (add_key ks k).
Proof.
  intros Hks. unfold add_key. case_bool_decide as Hin; [assumption |].
  apply NoDup_app. repeat split; [assumption | set_solver | apply NoDup_singleton].
Qed.

Lemma foldl_add_key_NoDup (labels ks : list string) :
  NoDup ks → NoDup (foldl add_key ks labels).
Proof.
  revert ks. induction labels as [| k labels IH]; intros ks Hks; simpl; [assumption |].
  by apply IH, add_key_NoDup.
Qed.

Lemma foldl_add_key_elem (labels ks : list string) (k : string) :
  k ∈ foldl add_key ks labels ↔ k ∈ ks ∨ k ∈ labels.
Proof.
  revert ks. induction labels as [| k0 labels IH]; intros ks; simpl; [set_solver |].
  rewrite IH. unfold add_key. case_bool_decide; set_solver.
Qed.

Lemma foldl_add_key_fresh (labels ks : list string) :
  NoDup (ks ++ labels) → foldl add_key ks labels = ks ++ labels.
Proof.
  revert ks. induction labels as [| k labels IH]; intros ks Hnd; simpl.
  - by rewrite app_nil_r.
  - apply NoDup_app in Hnd as (Hks & Hdisj & Hl). apply NoDup_cons in Hl as [Hk Hl].
    unfold add_key. rewrite bool_decide_eq_false_2 by set_solver.
    rewrite IH; [by rewrite <- app_assoc |].
    rewrite <- app_assoc. apply NoDup_app. repeat split; [assumption | | by apply NoDup_cons].
    set_solver.
Qed.

Lemma distinct_labels_NoDup (labels : list string) :
  NoDup labels → distinct_labels labels = labels.
Proof. intros Hnd. by apply (foldl_add_key_fresh labels []). Qed.

(** ** The loop *)

Lemma fill_recommendations_texts (rows : list Row) (d : dict) :
  fill_recommendations rows d =
    (ts ← texts_of rows; mret (store_all (combine (map date rows) ts) d)).
Proof.
  revert d. induction rows as [| row rows IH]; intros d; simpl; [reflexivity |].
  destruct (recommendation_for row) as [t |]; simpl; [| reflexivity].
  rewrite IH. destruct (texts_of rows); reflexivity.
Qed.

Lemma texts_of_ok (rows : list Row) :
  Forall (λ r, ∃ t, recommendation_for r = Ok t) rows →
  ∃ ts, texts_of rows = Ok ts ∧ Forall2 (λ r t, recommendation_for r = Ok t) rows ts.
Proof.
  induction 1 as [| row rows [t Ht] _ (ts & Hts & Hall)]; simpl.
  - exists []. split; [reflexivity | constructor].
  - exists (t :: ts). rewrite Ht, Hts. split; [reflexivity | by constructor].
Qed.

Lemma texts_of_raise (rows : list Row) (e : exn) :
  texts_of rows = Raise e → ∃ r, r ∈ rows ∧ recommendation_for r = Raise e.
Proof.
  induction rows as [| row rows IH]; simpl; [discriminate |].
  destruct (recommendation_for row) as [t |] eqn:Ht; simpl.
  - destruct (texts_of rows); simpl; [discriminate |].
    intros [= ->]. destruct (IH eq_refl) as (r & Hr & He). exists r. set_solver.
  - intros [= ->]. exists row. set_solver.
Qed.

(** ** The generator on the store *)

Module StoreFacts.

Lemma for_rows_fill (rows : list Row) (recs : Store.loc) (d0 : dict)
    (h : gmap Store.loc Store.object) :
  h !! recs = Some (Store.ODict d0) →
  ∃ d', Store.for_rows rows recs h =
          (match fill_recommendations rows d0 with
           | Ok _ => Ok tt
           | Raise e => Raise e
           end, <[recs := Store.ODict d']> h)
        ∧ ∀ d, fill_recommendations rows d0 = Ok d → d' = d.
Proof.
  revert d0 h. induction rows as [| row rows IH]; intros d0 h Hrecs; simpl.
  - exists d0. split; [| by intros d [= <-]].
    unfold mret, Store.prog_ret. by rewrite insert_id.
  - unfold mbind, Store.prog_bind, Store.lift at 1.
    destruct (recommendation_for row) as [t |]; simpl.
    + unfold Store.setitem at 1. rewrite Hrecs.
      destruct (IH (dict_set (date row) t d0)
                   (<[recs := Store.ODict (dict_set (date row) t d0)]> h))
        as (d' & Hrun & Hd'); [by rewrite lookup_insert_eq |].
      exists d'. simpl. rewrite Hrun, insert_insert_eq. split; [reflexivity | assumption].
    + exists d0. split; [| discriminate]. by rewrite insert_id.
Qed.

Lemma generate_recommendations_run (df : Store.loc) (rows : list Row)
    (h : gmap Store.loc Store.object) :
  h !! df = Some (Store.OFrame rows) →
  let l := fresh (dom h) in
  h !! l = None ∧
  ∃ d', Store.generate_recommendations df h =
          (match generate_recommendations rows with
           | Ok _ => Ok l
           | Raise e => Raise e
           end, <[l := Store.ODict d']> h)
        ∧ ∀ d, generate_recommendations rows = Ok d → d' = d.
Proof.
  intros Hdf l.
  assert (Hl : h !! l = None) by (apply not_elem_of_dom, is_fresh).
  split; [assumption |].
  assert (Hne : l ≠ df) by (intros ->; congruence).
  unfold Store.generate_recommendations, mbind, Store.prog_bind, Store.new_dict.
  fold l. unfold Store.iterrows at 1. rewrite lookup_insert_ne, Hdf by assumption.
  destruct (for_rows_fill rows l [] (<[l := Store.ODict []]> h))
    as (d' & Hrun & Hd'); [by rewrite lookup_insert_eq |].
  rewrite Hrun, insert_insert_eq. exists d'.
  unfold generate_recommendations.
  destruct (fill_recommendations rows []); (split; [reflexivity | assumption]).
Qed.

Lemma returned_run (df : Store.loc) (rows : list Row) (h : gmap Store.loc Store.object) :
  h !! df = Some (Store.OFrame rows) →
  Store.returned (Store.generate_recommendations df h) = generate_recommendations rows.
Proof.
  intros Hdf. destruct (generate_recommendations_run df rows h Hdf)
    as (_ & d' & -> & Hd').
  destruct (generate_recommendations rows) as [d |]; simpl; [| reflexivity].
  by rewrite lookup_insert_eq, (Hd' d).
Qed.

Lemma store_preserved (df : Store.loc) (rows : list Row) (h : gmap Store.loc Store.object)
    (l : Store.loc) (o : Store.object) :
  h !! df = Some (Store.OFrame rows) → h !! l = Some o →
  (Store.generate_recommendations df h).2 !! l = Some o.
Proof.
  intros Hdf Hl. destruct (generate_recommendations_run df rows h Hdf)
    as (Hfresh & d' & -> & _). simpl.
  rewrite lookup_insert_ne; [assumption | congruence].
Qed.

End StoreFacts.

(** ** Which row a key ends up with *)

Lemma last_binding_absent (k : string) (kvs : list (string * string))
    (o : option string) :
  k ∉ kvs.*1 →
  foldl (λ o kv, if String.eqb k kv.1 then Some kv.2 else o) o kvs = o.
Proof.
  revert o. induction kvs as [| [k0 v0] kvs IH]; intros o Hk; simpl; [reflexivity |].
  destruct (String.eqb_spec k k0) as [-> | Hne]; [set_solver |].
  apply IH. set_solver.
Qed.

Lemma combine_labels (rows : list Row) (ts : list string) :
  Forall2 (λ r t, recommendation_for r = Ok t) rows ts →
  (combine (map date rows) ts).*1 = map date rows.
Proof. induction 1; simpl; [reflexivity | by f_equal]. Qed.

Lemma last_binding_last_row (before after : list Row) (row : Row)
    (ts : list string) (t : string) :
  Forall2 (λ r t, recommendation_for r = Ok t) (before ++ row :: after) ts →
  recommendation_for row = Ok t →
  date row ∉ map date after →
  last_binding (date row) (combine (map date (before ++ row :: after)) ts) = Some t.
Proof.
  unfold last_binding. generalize (@None string). revert ts.
  induction before as [| r0 before IH]; intros ts o Hall Ht Hlater; simpl in *.
  - inversion Hall as [| ? t' ? ts' Ht' Hall']; subst. simpl.
    rewrite String.eqb_refl. assert (t' = t) as -> by congruence.
    apply last_binding_absent. by rewrite (combine_labels after ts').
  - inversion Hall as [| ? t' ? ts' Ht' Hall']; subst. simpl. by apply IH.
Qed.

Lemma generate_recommendations_ok (rows : list Row) :
  Forall (λ r, ∃ t, recommendation_for r = Ok t) rows →
  ∃ ts, Forall2 (λ r t, recommendation_for r = Ok t) rows ts ∧
        generate_recommendations rows
          = Ok (store_all (combine (map date rows) ts) []).
Proof.
  intros Hok. destruct (texts_of_ok rows Hok) as (ts & Hts & Hall).
  exists ts. split; [assumption |].
  unfold generate_recommendations. by rewrite fill_recommendations_texts, Hts.
Qed.

(** An exception of the generator is the exception of one of its rows. *)
Lemma generate_recommendations_raise (rows : list Row) (e : exn) :
  generate_recommendations rows = Raise e →
  ∃ row, row ∈ rows ∧ recommendation_for row = Raise e.
Proof.
  unfold generate_recommendations. rewrite fill_recommendations_texts.
  destruct (texts_of rows) as [ts |] eqn:Hts; simpl; [discriminate |].
  intros [= ->]. by apply texts_of_raise.
Qed.

Lemma recommendation_for_finite (row : Row) :
  finite_number (predicted_value row) →
  ∃ b v, band_of (predicted_value row) = Ok b ∧
         format_2f (predicted_value row) = Ok v ∧
         recommendation_for row = Ok (band_text b v +:+ soil_health_notes).
Proof.
  intros Hfin. destruct (number_value_finite _ Hfin) as [q Hq].
  destruct (band_of_value _ q Hq) as (b & Hb & _).
  destruct (format_2f_finite _ Hfin) as [v Hv].
  exists b, v. by rewrite recommendation_for_band, Hb, Hv.
Qed.

(** On the integer side the domain is exact: an integer with no finite
    double takes the first branch and fails to print. *)
Lemma recommendation_for_huge_int (row : Row) (z : Z) :
  predicted_value row = PInt z → 2 ^ 1024 - 2 ^ 970 <= z →
  recommendation_for row = Raise OverflowError.
Proof.
  intros Hv Hz. unfold recommendation_for. rewrite Hv. simpl.
  assert (H70 : 70 < z) by (assert (70 < 2 ^ 1024 - 2 ^ 970) by reflexivity; lia).
  apply Z.ltb_lt in H70. rewrite H70. simpl.
  assert (Hnone : Num.float_of_int z = None) by (apply float_of_int_overflow; lia).
  by rewrite Hnone.
Qed.

Lemma rows_finite_ok (rows : list Row) :
  Forall (λ r, finite_number (predicted_value r)) rows →
  Forall (λ r, ∃ t, recommendation_for r = Ok t) rows.
Proof.
  intros Hfin. eapply Forall_impl; [exact Hfin |]. intros r Hr.
  destruct (recommendation_for_finite r Hr) as (b & v & _ & _ & ->). eauto.
Qed.

Lemma recommendation_for_suffix (row : Row) (t : string) :
  recommendation_for row = Ok t → ends_with soil_health_notes t.
Proof.
  rewrite recommendation_for_band.
  destruct (band_of _) as [b |]; simpl; [| discriminate].
  destruct (format_2f _) as [v |]; simpl; [| discriminate].
  intros [= <-]. by exists (band_text b v).
Qed.

Lemma dict_set_values (P : string → Prop) (k v : string) (d : dict) :
  P v → Forall (λ kv, P kv.2) d → Forall (λ kv, P kv.2) (dict_set k v d).
Proof.
  intros Hv. induction 1 as [| [k0 v0] d Hkv Hd IH]; simpl.
  - by repeat constructor.
  - destruct (String.eqb k k0); constructor; auto.
Qed.

Lemma store_all_values (P : string → Prop) (kvs : list (string * string)) (d : dict) :
  Forall (λ kv, P kv.2) kvs → Forall (λ kv, P kv.2) d →
  Forall (λ kv, P kv.2) (store_all kvs d).
Proof.
  intros Hkvs. revert d. induction Hkvs as [| [k v] kvs Hkv Hkvs IH]; intros d Hd.
  - assumption.
  - unfold store_all in *. simpl. apply IH. by apply dict_set_values.
Qed.

(** ** The sample doubles are what they are named *)

Example sample_values :
  (∃ q, Num.float_value f70 = Some q ∧ q == 70)%Q ∧
  (∃ q, Num.float_value f55 = Some q ∧ q == 55)%Q ∧
  (∃ q, Num.float_value f40 = Some q ∧ q == 40)%Q ∧
  (∃ q, Num.float_value f82_5 = Some q ∧ q == 165 # 2)%Q ∧
  (∃ q, Num.float_value fm3_5 = Some q ∧ q == - (7 # 2))%Q.
Proof. repeat split; eexists; (split; [reflexivity | reflexivity]). Qed.

(** 70.01 is no double; [f70_01] is the one next to it, less than half a
    unit in the last place away. *)
Example sample_70_01 :
  ∃ q, Num.float_value f70_01 = Some q ∧
       (q - (1 # 2 ^ 47) < 7001 # 100)%Q ∧ (7001 # 100 < q + (1 # 2 ^ 47))%Q.
Proof. eexists. split; [reflexivity |]. split; reflexivity. Qed.

Example six_months_labels : map date six_months = month_labels.
Proof. reflexivity. Qed.

(** ** The printed number *)

(** For a value with a fractional part, what [.2f] prints is the nearest
    multiple of one hundredth, and the even one of the two when the value is
    halfway. The statement is scaled by the denominator [2 ^ (- e)]. *)
Lemma hundredths_nearest (m : positive) (e : Z) :
  e < 0 →
  let den := 2 ^ (- e) in
  let n := Num.hundredths m e in
  2 * Z.abs (n * den - Z.pos m * 100) <= den ∧
  (2 * Z.abs (n * den - Z.pos m * 100) = den → Z.even n = true).
Proof.
  intros He den n. subst n. unfold Num.hundredths.
  destruct (Z.leb_spec 0 e) as [| _]; [lia |]. fold den.
  assert (Hden : 0 < den) by (apply Z.pow_pos_nonneg; lia).
  pose proof (Z.div_mod (Z.pos m * 100) den ltac:(lia)) as Hdiv.
  pose proof (Z.mod_pos_bound (Z.pos m * 100) den Hden) as Hmod.
  set (q := Z.pos m * 100 / den) in *. set (r := (Z.pos m * 100) mod den) in *.
  destruct (Z.compare_spec (2 * r) den) as [Heq | Hlt | Hgt].
  - destruct (Z.even q) eqn:Heven.
    + split; [| done]. replace (q * den - Z.pos m * 100) with (- r) by lia. lia.
    + split.
      * replace ((q + 1) * den - Z.pos m * 100) with (den - r) by lia. lia.
      * intros _. by rewrite Z.even_add, Heven.
  - split; [replace (q * den - Z.pos m * 100) with (- r) by lia; lia |].
    replace (q * den - Z.pos m * 100) with (- r) by lia. lia.
  - split; [replace ((q + 1) * den - Z.pos m * 100) with (den - r) by lia; lia |].
    replace ((q + 1) * den - Z.pos m * 100) with (den - r) by lia. lia.
Qed.

Example format_2f_samples :
  format_2f (PFloat f70_01) = Ok "70.01" ∧
  format_2f (PFloat f12_75) = Ok "12.75" ∧
  format_2f (PFloat fm3_5) = Ok "-3.50" ∧
  format_2f (PFloat (S754_finite false 4503599627370496 (-55))) = Ok "0.12" ∧
  format_2f (PFloat (S754_finite false 6755399441055744 (-54))) = Ok "0.38" ∧
  format_2f (PFloat (S754_finite true 4611686018427388 (-62))) = Ok "-0.00" ∧
  format_2f (PFloat (S754_zero true)) = Ok "-0.00" ∧
  format_2f (PFloat S754_nan) = Ok "nan" ∧
  format_2f (PInt 70) = Ok "70.00" ∧
  format_2f (PInt (2 ^ 53 + 1)) = Ok "9007199254740992.00" ∧
  format_2f (PInt (2 ^ 1024)) = Raise OverflowError.
Proof. repeat split; vm_compute; reflexivity. Qed.

(** ** Reading the printed value back *)

Lemma string_of_uint_digits (d : Decimal.uint) :
  digit_string (NilEmpty.string_of_uint d).
Proof.
  induction d; simpl; [exact I | ..];
    (split; [unfold digit_char; set_solver | assumption]).
Qed.

Lemma split_point_digits (whole rest : string) :
  digit_string whole → split_point (whole +:+ String "." rest) = Some (whole, rest).
Proof.
  induction whole as [| c whole IH]; simpl; [reflexivity |].
  intros [Hc Hwhole]. rewrite (IH Hwhole).
  unfold digit_char in Hc.
  repeat (apply elem_of_cons in Hc as [-> | Hc]; [reflexivity |]).
  by apply not_elem_of_nil in Hc.
Qed.

(** A natural number prints as digits that read back as the number. *)
Lemma decimal_reads (z : Z) :
  0 <= z →
  ∃ d, Num.decimal z = NilEmpty.string_of_uint d ∧
       NilZero.uint_of_string (Num.decimal z) = Some d ∧ Z.of_uint d = z.
Proof.
  intros Hz. unfold Num.decimal. destruct z as [| p | p]; [| | lia].
  - exists (Decimal.D0 Decimal.Nil). repeat split.
  - exists (Pos.to_uint p).
    pose proof (Unsigned.to_uint_nonnil p) as Hnil.
    pose proof (DecimalZ.of_to (Z.pos p)) as Hof. simpl in Hof.
    assert (Hstr : NilZero.string_of_uint (Pos.to_uint p)
                   = NilEmpty.string_of_uint (Pos.to_uint p))
      by (destruct (Pos.to_uint p); [done | reflexivity ..]).
    simpl. split; [exact Hstr |]. split; [| exact Hof].
    by apply NilZero.usu.
Qed.

Lemma two_digits_read (a b : Z) :
  0 <= a <= 9 → 0 <= b <= 9 →
  ∃ f, NilZero.uint_of_string (Num.digit a +:+ Num.digit b) = Some f ∧
       Z.of_uint f = 10 * a + b ∧
       String.length (Num.digit a +:+ Num.digit b) = 2%nat.
Proof.
  intros Ha Hb.
  assert (Hcases : ∀ x, 0 <= x <= 9 →
            x ∈ [0; 1; 2; 3; 4; 5; 6; 7; 8; 9]).
  { intros x Hx.
    assert (x = 0 ∨ x = 1 ∨ x = 2 ∨ x = 3 ∨ x = 4 ∨ x = 5 ∨ x = 6 ∨ x = 7
            ∨ x = 8 ∨ x = 9) as Hor by lia.
    repeat destruct Hor as [-> | Hor]; try subst x; set_solver. }
  apply Hcases in Ha, Hb.
  repeat (apply elem_of_cons in Ha as [-> | Ha];
          [repeat (apply elem_of_cons in Hb as [-> | Hb];
                   [eexists; repeat split; vm_compute; reflexivity |]);
           by apply not_elem_of_nil in Hb |]).
  by apply not_elem_of_nil in Ha.
Qed.

Lemma fixed2_reads (negative : bool) (n : Z) :
  0 <= n →
  read_hundredths ((if negative then "-" else "") +:+ Num.fixed2 n)
  = Some (if negative then - n else n).
Proof.
  intros Hn. unfold Num.fixed2.
  destruct (decimal_reads (n / 100)) as (d & Hstr & Hread & Hd);
    [apply Z.div_pos; lia |].
  destruct (two_digits_read (n mod 100 / 10) (n mod 10)) as (f & Hf & Hval & Hlen).
  { pose proof (Z.mod_pos_bound n 100 ltac:(lia)).
    assert (n mod 100 / 10 < 10) by (apply Z.div_lt_upper_bound; lia).
    split; [apply Z.div_pos; lia | lia]. }
  { pose proof (Z.mod_pos_bound n 10 ltac:(lia)). lia. }
  assert (Hdigits : digit_string (Num.decimal (n / 100)))
    by (rewrite Hstr; apply string_of_uint_digits).
  assert (Hsum : Z.of_uint d * 100 + Z.of_uint f = n).
  { rewrite Hd, Hval. clear.
    Z.to_euclidean_division_equations. lia. }
  assert (Hbody : ∀ body, body = Num.decimal (n / 100) +:+ "." +:+
                    Num.digit (n mod 100 / 10) +:+ Num.digit (n mod 10) →
            match split_point body with
            | Some (whole, frac) =>
                match NilZero.uint_of_string whole, NilZero.uint_of_string frac with
                | Some w, Some f =>
                    if (String.length frac =? 2)%nat then
                      let n := Z.of_uint w * 100 + Z.of_uint f in
                      Some (if negative then - n else n)
                    else None
                | _, _ => None
                end
            | None => None
            end = Some (if negative then - n else n)).
  { intros body ->. change ("." +:+ ?s) with (String "." s).
    rewrite (split_point_digits _ _ Hdigits), Hread, Hf, Hlen.
    simpl. by rewrite Hsum. }
  unfold read_hundredths. destruct negative.
  - simpl. by apply Hbody.
  - change ("" +:+ ?s) with s.
    destruct (Num.decimal (n / 100)) as [| c whole] eqn:Hdec.
    { discriminate Hread. }
    assert (c ≠ "-"%char) as Hc.
    { destruct Hdigits as [Hc _]. intros ->. unfold digit_char in Hc.
      set_solver. }
    cbn [String.append].
    destruct c as [[] [] [] [] [] [] [] []]; try (by apply Hbody); done.
Qed.

Lemma hundredths_nonneg (m : positive) (e : Z) : 0 <= Num.hundredths m e.
Proof.
  unfold Num.hundredths. destruct (Z.leb_spec 0 e) as [He | He].
  - assert (0 < 2 ^ e) by (apply Z.pow_pos_nonneg; lia). lia.
  - assert (0 < 2 ^ (- e)) by (apply Z.pow_pos_nonneg; lia).
    assert (0 <= Z.pos m * 100 / 2 ^ (- e)) by (apply Z.div_pos; lia).
    destruct (_ ?= _); [destruct (Z.even _) | |]; lia.
Qed.

Lemma nearest_integer_eq (x y : Q) (n : Z) :
  (x == y)%Q → nearest_integer x n → nearest_integer y n.
Proof. unfold nearest_integer. by intros ->. Qed.

Lemma nearest_integer_exact (x : Q) (n : Z) :
  (x == inject_Z n)%Q → nearest_integer x n.
Proof.
  intros Hx. unfold nearest_integer. rewrite Hx.
  split; [| split]; [lra | lra |]. intros [H | H]; lra.
Qed.

Lemma nearest_integer_opp (x : Q) (n : Z) :
  nearest_integer x n → nearest_integer (- x) (- n).
Proof.
  unfold nearest_integer. rewrite inject_Z_opp, Z.even_opp.
  intros (Hlo & Hhi & Heven). split; [lra | split; [lra |]].
  intros [H | H]; apply Heven; [right | left]; lra.
Qed.

Lemma nearest_integer_ratio (num den n : Z) :
  0 < den →
  2 * Z.abs (n * den - num) <= den →
  (2 * Z.abs (n * den - num) = den → Z.even n = true) →
  nearest_integer (num # Z.to_pos den) n.
Proof.
  intros Hden Hnear Heven. unfold nearest_integer.
  unfold Qle, Qeq, Qminus, Qplus, Qopp, inject_Z. cbn [Qnum Qden].
  rewrite !Pos2Z.inj_mul, !Z2Pos.id by assumption.
  split; [lia | split; [lia |]].
  intros [H | H]; apply Heven; lia.
Qed.

(** The [.2f] text of a finite float reads back as the integer number of
    hundredths nearest to its exact value, ties to even. *)
Lemma float_format_2f_reads (f : spec_float) (q : Q) :
  Num.float_value f = Some q →
  ∃ n, read_hundredths (Num.float_format_2f f) = Some n ∧
       nearest_integer (100 * q) n.
Proof.
  destruct f as [s | s | | s m e]; simpl; try discriminate.
  - intros [= <-]. exists 0. split; [by destruct s |].
    by apply nearest_integer_exact.
  - intros [= <-].
    pose proof (hundredths_nonneg m e) as Hpos.
    assert (Hhalf : ∀ x n, nearest_integer (100 * x) n →
              nearest_integer (100 * - x) (- n)).
    { intros x n H. apply nearest_integer_opp in H.
      eapply nearest_integer_eq; [| exact H]. ring. }
    assert (Hplus : nearest_integer
              (100 * (if 0 <=? e then inject_Z (Z.pos m * 2 ^ e)
                      else Z.pos m # Z.to_pos (2 ^ (- e))))
              (Num.hundredths m e)).
    { destruct (Z.leb_spec 0 e) as [He | He].
      - unfold Num.hundredths. destruct (Z.leb_spec 0 e); [| lia].
        apply nearest_integer_exact.
        rewrite !inject_Z_mult. change (inject_Z 100) with 100%Q. ring.
      - assert (Hden : 0 < 2 ^ (- e)) by (apply Z.pow_pos_nonneg; lia).
        pose proof (hundredths_nearest m e He) as Hn. cbv zeta in Hn.
        destruct Hn as [Hnear Heven].
        apply (nearest_integer_eq (Z.pos m * 100 # Z.to_pos (2 ^ (- e)))).
        { unfold Qeq, Qmult. cbn [Qnum Qden]. lia. }
        apply nearest_integer_ratio; assumption. }
    exists (if s then - Num.hundredths m e else Num.hundredths m e).
    split; [by apply fixed2_reads |].
    destruct s; [| exact Hplus].
    destruct (Z.leb_spec 0 e) as [He | He].
    + change (Z.neg m) with (- Z.pos m).
      rewrite Z.mul_opp_l, inject_Z_opp. by apply Hhalf.
    + change (Z.neg m # ?d)%Q with (- (Z.pos m # d))%Q. by apply Hhalf.
Qed.

(** The double an integer converts to is the integer itself up to 53 bits,
    and beyond that differs from it by at most half a unit in the last
    place: a relative error of at most [2 ^ -53]. *)
Lemma float_of_magnitude_near (s : bool) (a : Z) (f : spec_float) :
  2 ^ 53 <= a →
  Num.float_of_magnitude s a = Some f →
  ∃ v, Num.float_value f = Some (inject_Z (if s then - v else v)) ∧
       2 ^ 53 * Z.abs (v - a) <= a.
Proof.
  intros Ha. unfold Num.float_of_magnitude. set (d := Z.log2 a + 1).
  assert (Hd : 2 ^ (d - 1) <= a < 2 ^ d).
  { subst d. replace (Z.log2 a + 1 - 1) with (Z.log2 a) by lia.
    replace (Z.log2 a + 1) with (Z.succ (Z.log2 a)) by lia.
    apply Z.log2_spec; lia. }
  assert (Hd53 : 53 < d).
  { subst d. assert (53 <= Z.log2 a) by (apply Z.log2_le_pow2; lia). lia. }
  clearbody d.
  destruct (Z.leb_spec d 53) as [Hsmall | _]; [lia |].
  set (sh := d - 53) in *.
  assert (Hsh : 1 <= sh) by (subst sh; lia).
  set (P := 2 ^ sh). set (half := 2 ^ (sh - 1)).
  assert (HP : P = 2 * half).
  { subst P half. replace sh with (Z.succ (sh - 1)) at 1 by lia.
    apply Z.pow_succ_r; lia. }
  assert (Hhalf : 0 < half) by (apply Z.pow_pos_nonneg; lia).
  assert (HP1 : 2 ^ (sh + 1) = 2 * P).
  { subst P. replace (sh + 1) with (Z.succ sh) by lia. apply Z.pow_succ_r; lia. }
  assert (Hd'' : 2 ^ (d - 1) = P * 2 ^ 52).
  { subst P sh. rewrite <- Z.pow_add_r by lia. f_equal; lia. }
  assert (Hd' : 2 ^ d = P * 2 ^ 53).
  { subst P sh. rewrite <- Z.pow_add_r by lia. f_equal; lia. }
  pose proof (Z.div_mod a P ltac:(lia)) as Hdiv.
  pose proof (Z.mod_pos_bound a P ltac:(lia)) as Hmod.
  set (q := a / P) in *. set (r := a mod P) in *.
  assert (Hq : 2 ^ 52 <= q < 2 ^ 53) by nia.
  set (c := (half <? r) || ((r =? half) && Z.odd q)).
  assert (Hup : c = true → half <= r).
  { subst c. destruct (Z.ltb_spec half r), (Z.eqb_spec r half); simpl;
      intros; try discriminate; lia. }
  assert (Hdown : c = false → r <= half).
  { subst c. destruct (Z.ltb_spec half r); simpl; intros; [discriminate | lia]. }
  assert (H52 : (2 ^ 52 : Z) = 4503599627370496) by reflexivity.
  assert (H53 : (2 ^ 53 : Z) = 9007199254740992) by reflexivity.
  rewrite H52, H53 in *.
  assert (HPdef : 2 ^ sh = P) by reflexivity.
  clearbody c P half q r.
  set (q' := if c then q + 1 else q).
  assert (Hq' : 2 ^ 53 * Z.abs (q' * P - a) <= a ∧ 0 < q').
  { rewrite H53. subst q'. destruct c;
      [specialize (Hup eq_refl) | specialize (Hdown eq_refl)]; nia. }
  clearbody q'.
  assert (Hflag : (1024 <? sh + 53) = (1024 <? (if q' =? 9007199254740992
                     then sh + 1 else sh) + 53) ∨ True) by (right; exact I).
  clear Hflag.
  destruct (Z.eqb_spec q' 9007199254740992) as [Heq | Hne].
  - destruct (1024 <? sh + 1 + 53); [discriminate |]. intros [= <-].
    exists (q' * P). split; [| tauto]. simpl.
    destruct (Z.leb_spec 0 (sh + 1)); [| lia].
    rewrite HP1, Heq. destruct s; do 2 f_equal; lia.
  - destruct (1024 <? sh + 53); [discriminate |]. intros [= <-].
    exists (q' * P). split; [| tauto]. simpl.
    destruct (Z.leb_spec 0 sh); [| lia].
    rewrite HPdef, <- ?Pos2Z.opp_pos, Z2Pos.id by lia.
    destruct s; do 2 f_equal; lia.
Qed.

Lemma float_of_int_near (z : Z) (f : spec_float) :
  Num.float_of_int z = Some f →
  ∃ q, Num.float_value f = Some q ∧
       (Z.abs z < 2 ^ 53 → (q == inject_Z z)%Q) ∧
       (inject_Z (2 ^ 53) * (q - inject_Z z) <= inject_Z (Z.abs z))%Q ∧
       (inject_Z (2 ^ 53) * (inject_Z z - q) <= inject_Z (Z.abs z))%Q.
Proof.
  intros Hf. destruct (Z.lt_ge_cases (Z.abs z) (2 ^ 53)) as [Hsmall | Hbig].
  - destruct (float_of_int_exact z Hsmall) as (f' & Hf' & q & Hq & Heq).
    rewrite Hf in Hf'. injection Hf' as <-.
    exists q. split; [exact Hq |]. split; [done |].
    assert (0 <= inject_Z (Z.abs z))%Q
      by (rewrite <- (Zle_Qle 0); apply Z.abs_nonneg).
    rewrite Heq. split.
    + assert (inject_Z z - inject_Z z == 0)%Q as -> by ring.
      by rewrite Qmult_0_r.
    + assert (inject_Z z - inject_Z z == 0)%Q as -> by ring.
      by rewrite Qmult_0_r.
  - assert (H53 : (0 < 2 ^ 53)) by reflexivity.
    destruct z as [| p | p]; [simpl in Hbig; lia | |]; simpl in Hf.
    + destruct (float_of_magnitude_near _ _ _ Hbig Hf) as (v & Hv & Hnear).
      simpl in Hv. exists (inject_Z v). split; [exact Hv |].
      split; [simpl in Hbig; lia |].
      unfold Qminus. rewrite <- !inject_Z_opp, <- !inject_Z_plus, <- !inject_Z_mult,
        <- !Zle_Qle. simpl Z.abs in *. lia.
    + destruct (float_of_magnitude_near _ _ _ Hbig Hf) as (v & Hv & Hnear).
      simpl in Hv. exists (inject_Z (- v)). split; [exact Hv |].
      split; [simpl in Hbig; lia |].
      unfold Qminus. rewrite <- !inject_Z_opp, <- !inject_Z_plus, <- !inject_Z_mult,
        <- !Zle_Qle. simpl Z.abs in *. lia.
Qed.

(** What the heading prints for a number of the domain: the float's own
    value; for an int the value of the double it converts to. *)
Lemma format_2f_reads (v : pyval) (q : Q) :
  finite_number v → number_value v = Some q →
  ∃ s n q', format_2f v = Ok s ∧
            read_hundredths s = Some n ∧
            nearest_integer (100 * q') n ∧
            ((∃ f, v = PFloat f) → q' == q)%Q ∧
            (Qabs q < inject_Z (2 ^ 53) → q' == q)%Q ∧
            (inject_Z (2 ^ 53) * Qabs (q' - q) <= Qabs q)%Q.
Proof.
  destruct v as [| b0 | z | f | s0 | items | fields]; cbn [finite_number number_value]; try done.
  - intros Hz [= <-].
    destruct (float_of_int_finite z Hz) as [f Hf].
    destruct (float_of_int_near z f Hf) as (q' & Hq' & Hexact & Hup & Hdown).
    destruct (float_format_2f_reads f q' Hq') as (n & Hread & Hn).
    exists (Num.float_format_2f f), n, q'. cbn [format_2f]. rewrite Hf.
    assert (Habs : Qabs (inject_Z z) = inject_Z (Z.abs z)) by reflexivity.
    split; [reflexivity |]. split; [exact Hread |]. split; [exact Hn |].
    split; [| split].
    + intros [f' Hf']. discriminate Hf'.
    + rewrite Habs, <- Zlt_Qlt. exact Hexact.
    + rewrite Habs.
      destruct (Qlt_le_dec (q' - inject_Z z) 0) as [Hneg | Hpos].
      * rewrite Qabs_neg by (by apply Qlt_le_weak).
        eapply Qle_trans; [| exact Hdown].
        apply Qle_lteq; right. ring.
      * by rewrite Qabs_pos.
  - intros _ Hq.
    destruct (float_format_2f_reads f q Hq) as (n & Hread & Hn).
    exists (Num.float_format_2f f), n, q.
    split; [reflexivity |]. split; [exact Hread |]. split; [exact Hn |].
    split; [reflexivity |]. split; [reflexivity |].
    assert (q - q == 0)%Q as -> by ring.
    change (Qabs 0) with 0%Q. rewrite Qmult_0_r. apply Qabs_nonneg.
Qed.

(** A number outside the domain is an integer with no finite double. *)
Lemma number_not_finite (v : pyval) (q : Q) :
  number_value v = Some q → ¬ finite_number v →
  ∃ z, v = PInt z ∧ 2 ^ 1024 - 2 ^ 970 <= Z.abs z.
Proof.
  destruct v as [| b0 | z | f | s0 | items | fields]; simpl; try done.
  - intros _ Hz. exists z. split; [reflexivity | lia].
  - intros Hq Hf. exfalso. apply Hf. by destruct f.
Qed.

Lemma recommendation_for_overflow (row : Row) (z : Z) :
  predicted_value row = PInt z → 2 ^ 1024 - 2 ^ 970 <= Z.abs z →
  recommendation_for row = Raise OverflowError.
Proof.
  intros Hv Hz. rewrite recommendation_for_band, Hv.
  apply float_of_int_overflow in Hz.
  unfold band_of, format_2f. simpl. rewrite Hz.
  destruct (70 <? z); [reflexivity |].
  destruct (55 <? z); [reflexivity |].
  destruct (40 <? z); reflexivity.
Qed.

Lemma band_text_heading (b : band) (v : string) :
  contains (heading b v) (band_text b v).
Proof.
  exists (newline +:+ "            ").
  destruct b; eexists; cbn; rewrite ?append_assoc; reflexivity.
Qed.

Lemma texts_of_rows_ok (rows : list Row) (ts : list string) :
  texts_of rows = Ok ts → Forall (λ r, ∃ t, recommendation_for r = Ok t) rows.
Proof.
  revert ts. induction rows as [| r rows IH]; intros ts H; [constructor |].
  simpl in H. destruct (recommendation_for r) as [t |] eqn:Ht; [| discriminate H].
  simpl in H. destruct (texts_of rows) as [ts' |]; [| discriminate H].
  constructor; eauto.
Qed.

(** A call that returns has got a text from every row. *)
Lemma generate_recommendations_rows_ok (rows : list Row) (d : dict) :
  generate_recommendations rows = Ok d →
  Forall (λ r, ∃ t, recommendation_for r = Ok t) rows.
Proof.
  unfold generate_recommendations. rewrite fill_recommendations_texts.
  destruct (texts_of rows) as [ts |] eqn:Hts; [intros _ | discriminate].
  by apply (texts_of_rows_ok rows ts).
Qed.

(** A row of the frame is a number that raises only when it is an integer
    with no finite double. *)
Lemma number_row_outcome (row : Row) :
  is_Some (number_value (predicted_value row)) →
  (finite_number (predicted_value row) ∧ ∃ t, recommendation_for row = Ok t) ∨
  (¬ finite_number (predicted_value row) ∧
   recommendation_for row = Raise OverflowError ∧
   ∃ z, predicted_value row = PInt z ∧ 2 ^ 1024 - 2 ^ 970 <= Z.abs z).
Proof.
  intros [q Hq].
  destruct (predicted_value row) as [| b0 | z | f | s0 | items | fields] eqn:Hv; try discriminate Hq.
  - destruct (Z.lt_ge_cases (Z.abs z) (2 ^ 1024 - 2 ^ 970)) as [Hlt | Hge].
    + left. split; [exact Hlt |].
      destruct (recommendation_for_finite row) as (b & v & _ & _ & Ht);
        [rewrite Hv; exact Hlt | eauto].
    + right. split; [simpl; lia |].
      split; [by apply (recommendation_for_overflow row z) | eauto].
  - left. assert (Hfin : finite_number (PFloat f)) by (by destruct f).
    split; [exact Hfin |].
    destruct (recommendation_for_finite row) as (b & v & _ & _ & Ht);
      [rewrite Hv; exact Hfin | eauto].
Qed.

(** ** The recommendation generator: bands and text *)





(** C3. Every advisory string the generator returns, whatever the row and
    the band, ends with the same soil health block, the text written out
    below line by line (a blank line of eight spaces, the title, the four
    items, and eight spaces after the last line feed); before it comes the
    band's own block. And on numbers of the domain the generator does return
    such strings. *)
Theorem advisory_ends_with_soil_health_notes (rows : list Row) :
  let block := String.concat (String "010" "")
    [ "";
      "        ";
      "        *Additional Soil Health Recommendations:*";
      "        - Maintain proper soil pH (6.0-7.0) for optimal nutrient availability";
      "        - Ensure adequate soil moisture for nutrient uptake";
      "        - Consider micronutrient supplements if deficiency symptoms are present";
      "        - Practice sustainable soil management to improve long-term fertility";
      "        " ] in
  (∀ d, generate_recommendations rows = Ok d →
     Forall (λ kv, ends_with block kv.2) d) ∧
  (∀ row text, recommendation_for row = Ok text →
     ∃ b v, text = band_text b v +:+ block) ∧
  (Forall (λ r, finite_number (predicted_value r)) rows →
     ∃ d, generate_recommendations rows = Ok d ∧
          Forall (λ kv, ends_with block kv.2) d ∧
          (rows ≠ [] → d ≠ [])).
Proof.
  intros block.
  assert (Hblock : soil_health_notes = block) by reflexivity.
  clearbody block. destruct Hblock.
  assert (Hsuffix : ∀ d, generate_recommendations rows = Ok d →
            Forall (λ kv, ends_with soil_health_notes kv.2) d);
    [| split; [exact Hsuffix | split]].
  - intros d. unfold generate_recommendations.
    rewrite fill_recommendations_texts.
    destruct (texts_of rows) as [ts |] eqn:Hts; simpl; [| discriminate].
    intros [= <-]. apply store_all_values; [| constructor].
    revert ts Hts. induction rows as [| r rows IH]; simpl.
    + intros ts [= <-]. constructor.
    + destruct (recommendation_for r) as [t |] eqn:Ht; simpl; [| discriminate].
      destruct (texts_of rows) as [ts' |]; simpl; [| discriminate].
      intros ts [= <-]. constructor; [| by apply IH].
      by apply (recommendation_for_suffix r).
  - intros row text. rewrite recommendation_for_band.
    destruct (band_of _) as [b |]; simpl; [| discriminate].
    destruct (format_2f _) as [v |]; simpl; [| discriminate].
    intros [= <-]. eauto.
  - intros Hfin.
    destruct (generate_recommendations_ok _ (rows_finite_ok _ Hfin))
      as (ts & Hall & Hgen).
    eexists. split; [exact Hgen |]. split; [by apply Hsuffix |].
    destruct Hall as [| r t rows ts Ht Hall]; [done |].
    intros _ Hnil. apply (f_equal keys) in Hnil. revert Hnil.
    rewrite keys_store_all. intros Hnil.
    assert (Hin : date r ∈ foldl add_key (keys [])
                    (combine (map date (r :: rows)) (t :: ts)).*1)
      by (apply foldl_add_key_elem; right; apply list_elem_of_here).
    rewrite Hnil in Hin. by apply not_elem_of_nil in Hin.
Qed.

Lemma advisory_ends_with_soil_health_notes_witness :
  ∃ d, generate_recommendations six_months = Ok d ∧
       length d = 6%nat ∧
       Forall (λ kv, ends_with
         (String.concat (String "010" "")
            [ "";
              "        ";
              "        *Additional Soil Health Recommendations:*";
              "        - Maintain proper soil pH (6.0-7.0) for optimal nutrient availability";
              "        - Ensure adequate soil moisture for nutrient uptake";
              "        - Consider micronutrient supplements if deficiency symptoms are present";
              "        - Practice sustainable soil management to improve long-term fertility";
              "        " ]) kv.2) d.
Proof.
  eexists. split; [vm_compute; reflexivity |]. split; [reflexivity |].
  apply (advisory_ends_with_soil_health_notes six_months).
  vm_compute. reflexivity.
Defined.

(** ** The recommendation generator: the mapping *)

(** A frame in which a period label occurs twice gives one key for it, not
    two: the keys are not the input labels, and the first of the two rows has
    no recommendation in the result. *)
Lemma repeated_label_one_key :
  let rows := [ forecast_row "Month 1" f82_5 f70 f82_5;
                forecast_row "Month 1" f30 f12_75 f40 ] in
  ∃ d, generate_recommendations rows = Ok d ∧
       keys d = ["Month 1"] ∧
       keys d ≠ map date rows ∧
       length d ≠ length rows ∧
       dict_get "Month 1" d
         = Some (low_moderate_text "30.00" +:+ soil_health_notes).
Proof.
  eexists. split; [vm_compute; reflexivity |].
  repeat split; discriminate.
Qed.

(** C4, as the code has it. For a frame of finite predicted values the
    generator returns a mapping with one key per distinct period label, in
    the order in which the labels first occur, and every input label is a key.
    When the labels are pairwise distinct, the keys are the input labels in
    input order, one entry per row, each holding that row's advisory; six rows
    labelled Month 1 to Month 6 give those six keys in that order. *)
Theorem one_recommendation_per_label (rows : list Row) :
  Forall (λ r, finite_number (predicted_value r)) rows →
  ∃ d, generate_recommendations rows = Ok d ∧
       keys d = distinct_labels (map date rows) ∧
       NoDup (keys d) ∧
       (∀ row, row ∈ rows → is_Some (dict_get (date row) d)) ∧
       (NoDup (map date rows) →
          keys d = map date rows ∧
          length d = length rows ∧
          ∀ row, row ∈ rows →
            ∃ text, recommendation_for row = Ok text ∧
                    dict_get (date row) d = Some text).
Proof.
  intros Hfin.
  destruct (generate_recommendations_ok _ (rows_finite_ok _ Hfin))
    as (ts & Hall & Hgen).
  eexists. split; [exact Hgen |].
  assert (Hkeys : keys (store_all (combine (map date rows) ts) [])
                  = distinct_labels (map date rows)).
  { by rewrite keys_store_all, (combine_labels rows ts Hall). }
  assert (Hlookup : ∀ row, row ∈ rows →
            ∀ after before, rows = before ++ row :: after →
            date row ∉ map date after →
            ∃ text, recommendation_for row = Ok text ∧
              dict_get (date row) (store_all (combine (map date rows) ts) [])
                = Some text).
  { intros row Hrow after before -> Hlater.
    assert (Hok : ∃ t, recommendation_for row = Ok t).
    { apply rows_finite_ok in Hfin.
      rewrite Forall_app, Forall_cons in Hfin. tauto. }
    destruct Hok as [t Ht]. exists t. split; [assumption |].
    rewrite dict_get_store_all.
    by rewrite (last_binding_last_row before after row ts _ Hall Ht Hlater). }
  split; [exact Hkeys |]. split; [| split].
  - rewrite Hkeys. apply foldl_add_key_NoDup, NoDup_nil_2.
  - intros row Hrow. apply dict_get_key. rewrite Hkeys.
    apply foldl_add_key_elem. right. by apply list_elem_of_fmap_2.
  - intros Hnd. split; [| split].
    + rewrite Hkeys. by apply distinct_labels_NoDup.
    + rewrite <- (length_map fst). fold (keys (store_all (combine (map date rows) ts) [])).
      rewrite Hkeys, distinct_labels_NoDup by assumption. apply length_map.
    + intros row Hrow.
      destruct (list_elem_of_split _ _ Hrow) as (before & after & Hsplit).
      apply (Hlookup row Hrow after before Hsplit).
      subst rows. rewrite map_app in Hnd. simpl in Hnd.
      apply NoDup_app in Hnd as (_ & _ & Hnd). by apply NoDup_cons in Hnd as [? _].
Qed.

Lemma one_recommendation_per_label_witness :
  ∃ d, generate_recommendations six_months = Ok d ∧
       keys d = distinct_labels (map date six_months) ∧
       keys d = month_labels ∧
       length d = 6%nat.
Proof.
  destruct (one_recommendation_per_label six_months) as (d & Hd & Hkeys & _ & _ & Hnd).
  - repeat constructor.
  - exists d. destruct Hnd as (Hk & Hlen & _).
    + apply (bool_decide_unpack _). vm_compute. exact I.
    + auto.
Defined.

(** C5. The advisory is a function of the predicted value alone: rows with
    the same predicted value get the same text, whatever their confidence
    bounds, and two frames that agree on labels and predicted values give the
    same mapping. *)
Theorem advisory_of_predicted_value_only (rows1 rows2 : list Row) :
  map date rows1 = map date rows2 →
  map predicted_value rows1 = map predicted_value rows2 →
  generate_recommendations rows1 = generate_recommendations rows2 ∧
  ∀ r1 r2, predicted_value r1 = predicted_value r2 →
    recommendation_for r1 = recommendation_for r2 ∧
    ∀ d1 d2, generate_recommendations [r1] = Ok d1 →
             generate_recommendations [r2] = Ok d2 →
             dict_get (date r1) d1 = dict_get (date r2) d2.
Proof.
  assert (Hrow : ∀ r1 r2, predicted_value r1 = predicted_value r2 →
                   recommendation_for r1 = recommendation_for r2).
  { intros r1 r2 Hv. unfold recommendation_for. by rewrite Hv. }
  intros Hdates Hvalues. split.
  - unfold generate_recommendations. generalize (@nil (string * string)).
    revert rows2 Hdates Hvalues.
    induction rows1 as [| r1 rows1 IH]; intros [| r2 rows2] Hdates Hvalues d;
      try discriminate; [reflexivity |].
    simpl in *. injection Hdates as Hdate Hdates. injection Hvalues as Hv Hvalues.
    rewrite (Hrow r1 r2 Hv), Hdate.
    destruct (recommendation_for r2); simpl; [by apply IH | reflexivity].
  - intros r1 r2 Hv. split; [by apply Hrow |].
    unfold generate_recommendations. simpl. rewrite (Hrow r1 r2 Hv).
    destruct (recommendation_for r2); simpl; [| discriminate].
    intros d1 d2 [= <-] [= <-]. simpl. by rewrite !String.eqb_refl.
Qed.

Lemma advisory_of_predicted_value_only_witness :
  generate_recommendations
    [forecast_row "Month 1" f82_5 f70 f82_5; forecast_row "Month 2" f40 f30 f55]
  = generate_recommendations
    [forecast_row "Month 1" f82_5 fm3_5 f70_01; forecast_row "Month 2" f40 f12_75 f47_5].
Proof.
  apply (advisory_of_predicted_value_only
           [forecast_row "Month 1" f82_5 f70 f82_5; forecast_row "Month 2" f40 f30 f55]
           [forecast_row "Month 1" f82_5 fm3_5 f70_01;
            forecast_row "Month 2" f40 f12_75 f47_5]);
    reflexivity.
Defined.

(** A frame of finite numbers on which the call raises: its second value is
    a negative integer too large in magnitude for a double. *)
Lemma huge_integer_frame_raises :
  let rows := [ forecast_row "Month 1" f82_5 f70 f82_5;
                {| date := "Month 2"; predicted_value := PInt (- 2 ^ 1024);
                   lower_ci := PNone; upper_ci := PNone |} ] in
  number_value (PFloat f82_5) = Some (5805421394657280 # 70368744177664)%Q ∧
  number_value (PInt (- 2 ^ 1024)) = Some (inject_Z (- 2 ^ 1024)) ∧
  recommendation_for (forecast_row "Month 1" f82_5 f70 f82_5)
    = Ok (band_text High "82.50" +:+ soil_health_notes) ∧
  generate_recommendations rows = Raise OverflowError.
Proof. repeat split; vm_compute; reflexivity. Qed.

(** C6. On a frame whose predicted values are all finite numbers, negative
    and zero included, the generator returns a mapping exactly when every
    value has a finite double, which every finite float has and every
    integer of magnitude below [2 ^ 1024 - 2 ^ 970], so every 64-bit one.
    Otherwise it raises OverflowError, from the formatting of an integer
    beyond that bound, and it raises nothing else. *)
Theorem generate_recommendations_total (rows : list Row) :
  Forall (λ r, is_Some (number_value (predicted_value r))) rows →
  ((∃ d, generate_recommendations rows = Ok d) ↔
     Forall (λ r, finite_number (predicted_value r)) rows) ∧
  (∀ e, generate_recommendations rows = Raise e →
     e = OverflowError ∧
     ∃ row z, row ∈ rows ∧ predicted_value row = PInt z ∧
              2 ^ 1024 - 2 ^ 970 <= Z.abs z) ∧
  (Forall (λ r, ∀ z, predicted_value r = PInt z → - 2 ^ 63 <= z < 2 ^ 64) rows →
     ∃ d, generate_recommendations rows = Ok d).
Proof.
  intros Hnum.
  assert (Hiff : (∃ d, generate_recommendations rows = Ok d) ↔
            Forall (λ r, finite_number (predicted_value r)) rows).
  { split.
    - intros [d Hd]. apply generate_recommendations_rows_ok in Hd.
      rewrite Forall_forall in *. intros r Hr.
      destruct (number_row_outcome r (Hnum r Hr)) as [[Hfin _] | (_ & Hraise & _)];
        [exact Hfin |].
      destruct (Hd r Hr) as [t Ht]. rewrite Hraise in Ht. discriminate Ht.
    - intros Hfin.
      destruct (generate_recommendations_ok _ (rows_finite_ok _ Hfin))
        as (ts & _ & Hgen).
      eauto. }
  split; [exact Hiff |]. split.
  - intros e He.
    destruct (generate_recommendations_raise rows e He) as (row & Hrow & Hraise).
    rewrite Forall_forall in Hnum.
    destruct (number_row_outcome row (Hnum row Hrow))
      as [[_ [t Ht]] | (_ & Hover & z & Hz & Hbig)].
    + rewrite Hraise in Ht. discriminate Ht.
    + rewrite Hraise in Hover. injection Hover as ->. eauto 6.
  - intros Hmachine. apply Hiff.
    rewrite Forall_forall in *. intros r Hr.
    destruct (number_row_outcome r (Hnum r Hr))
      as [[Hfin _] | (_ & _ & z & Hz & Hbig)]; [exact Hfin |].
    specialize (Hmachine r Hr z Hz).
    assert (2 ^ 64 < 2 ^ 1024 - 2 ^ 970) by reflexivity. lia.
Qed.

Lemma generate_recommendations_total_witness :
  ∃ d, generate_recommendations
         [ forecast_row "Month 1" fm3_5 fm3_5 f30;
           {| date := "Month 2"; predicted_value := PFloat (S754_zero false);
              lower_ci := PNone; upper_ci := PNone |};
           {| date := "Month 3"; predicted_value := PInt (-12);
              lower_ci := PNone; upper_ci := PNone |};
           forecast_row "Month 4" f82_5 f70 f82_5 ] = Ok d.
Proof.
  apply generate_recommendations_total.
  - repeat constructor; by eexists.
  - repeat (constructor;
            [intros z Hz; try discriminate Hz; injection Hz as <-; lia |]).
    constructor.
Defined.

(** C10. Band selection is monotone: of two numbers, the smaller one never
    falls into a higher band, in the order Low-Moderate, Moderate,
    Moderate-High, High. *)
Theorem band_monotone (v1 v2 : pyval) (q1 q2 : Q) :
  number_value v1 = Some q1 → number_value v2 = Some q2 → (q1 <= q2)%Q →
  ∃ b1 b2, band_of v1 = Ok b1 ∧ band_of v2 = Ok b2 ∧ band_le b1 b2.
Proof.
  intros Hq1 Hq2 Hle.
  destruct (band_of_value v1 q1 Hq1) as (b1 & Hb1 & H1 & H2 & H3 & H4).
  destruct (band_of_value v2 q2 Hq2) as (b2 & Hb2 & G1 & G2 & G3 & G4).
  exists b1, b2. repeat split; try assumption.
  unfold band_le.
  destruct b1, b2; simpl; try lia; exfalso.
  all: repeat match goal with
         | H : ?b = ?b ↔ _ |- _ => apply proj1 in H; specialize (H eq_refl)
         | H : _ ↔ _ |- _ => clear H
         end; lra.
Qed.

Lemma band_monotone_witness :
  ∃ b1 b2, band_of (PFloat f40) = Ok b1 ∧ band_of (PInt 56) = Ok b2 ∧ band_le b1 b2.
Proof.
  apply (band_monotone (PFloat f40) (PInt 56)
           (5629499534213120 # 140737488355328)%Q (inject_Z 56)).
  - reflexivity.
  - reflexivity.
  - vm_compute. discriminate.
Defined.

(** ** The recommendation generator: effects *)

(** C8. A call changes no object that existed before it, the caller's frame
    included; what it returns is a new object whose content depends on the
    frame's rows alone. So a call on equal rows returns an equal mapping in
    any store, whatever calls came before it, and a call leaves later calls
    what they would have returned without it. *)
Theorem generate_recommendations_no_side_effect
    (h : gmap Store.loc Store.object) (forecast_df : Store.loc) (rows : list Row) :
  h !! forecast_df = Some (Store.OFrame rows) →
  let r := Store.generate_recommendations forecast_df h in
  (∀ l o, h !! l = Some o → r.2 !! l = Some o) ∧
  (∀ l, r.1 = Ok l → h !! l = None) ∧
  Store.returned r = generate_recommendations rows ∧
  (∀ h' df', h' !! df' = Some (Store.OFrame rows) →
     Store.returned (Store.generate_recommendations df' h') = Store.returned r) ∧
  (∀ df' rows', h !! df' = Some (Store.OFrame rows') →
     Store.returned (Store.generate_recommendations df' r.2)
     = Store.returned (Store.generate_recommendations df' h)).
Proof.
  intros Hdf r. repeat split.
  - intros l o Hl. by apply (StoreFacts.store_preserved forecast_df rows).
  - intros l Hl. subst r.
    destruct (StoreFacts.generate_recommendations_run forecast_df rows h Hdf)
      as (Hfresh & d' & Hrun & _).
    rewrite Hrun in Hl. simpl in Hl.
    destruct (generate_recommendations rows); [| discriminate].
    by injection Hl as <-.
  - by apply StoreFacts.returned_run.
  - intros h' df' Hdf'. subst r.
    by rewrite (StoreFacts.returned_run df' rows h'),
               (StoreFacts.returned_run forecast_df rows h).
  - intros df' rows' Hdf'.
    rewrite (StoreFacts.returned_run df' rows' h) by assumption.
    apply StoreFacts.returned_run.
    by apply (StoreFacts.store_preserved forecast_df rows).
Qed.

Lemma generate_recommendations_no_side_effect_witness :
  let h : gmap Store.loc Store.object := {[ 1%positive := Store.OFrame six_months ]} in
  let r := Store.generate_recommendations 1%positive h in
  r.2 !! 1%positive = Some (Store.OFrame six_months) ∧
  Store.returned r = generate_recommendations six_months.
Proof.
  intros h r.
  destruct (generate_recommendations_no_side_effect h 1%positive six_months)
    as (Hkeep & _ & Hret & _).
  - vm_compute. reflexivity.
  - split; [apply Hkeep; vm_compute; reflexivity | exact Hret].
Defined.

(** ** The forecast fetch *)

(** A response with status 200 whose body does not decode as JSON: the fetch
    shows an error and returns [None], so a status of 200 does not by itself
    make it return a parsed body. *)
Lemma get_forecast_200_undecodable :
  let response := {| status_code := 200; json := inl "Expecting value" |} in
  get_forecast (inr response)
    = ([st_error "Error connecting to API: Expecting value"], Ok PNone) ∧
  ¬ (status_code response = 200 →
     ∃ body, json response = inr body ∧ get_forecast (inr response) = ([], Ok body)).
Proof.
  split; [reflexivity |].
  intros H. destruct (H eq_refl) as (body & Hbody & _). discriminate Hbody.
Qed.

(** C7, as the code has it. The fetch never raises. A transport error, a
    status other than 200, and a body that does not decode are all answered
    by one error message and [None]; the parsed body is returned, and nothing
    shown, exactly when the status is 200 and the body decodes. *)
Theorem get_forecast_cases (requests_get : request) :
  (∀ e, requests_get = inl e →
     get_forecast requests_get
       = ([st_error ("Error connecting to API: " +:+ e)], Ok PNone)) ∧
  (∀ response, requests_get = inr response → status_code response ≠ 200 →
     get_forecast requests_get
       = ([st_error ("Error fetching forecast: "
                     +:+ Num.decimal (status_code response))], Ok PNone)) ∧
  (∀ response e, requests_get = inr response → status_code response = 200 →
     json response = inl e →
     get_forecast requests_get
       = ([st_error ("Error connecting to API: " +:+ e)], Ok PNone)) ∧
  (∀ response body, requests_get = inr response → status_code response = 200 →
     json response = inr body →
     get_forecast requests_get = ([], Ok body)) ∧
  ((get_forecast requests_get).1 = [] ↔
     ∃ response body, requests_get = inr response ∧
       status_code response = 200 ∧ json response = inr body) ∧
  (∃ shown v, get_forecast requests_get = (shown, Ok v) ∧
     (shown ≠ [] → v = PNone)).
Proof.
  split; [| split; [| split; [| split; [| split]]]].
  - by intros e ->.
  - intros response -> H200. unfold get_forecast.
    by destruct (Z.eqb_spec (status_code response) 200).
  - intros response e -> H200 Hjson. unfold get_forecast.
    by rewrite H200, Hjson.
  - intros response body -> H200 Hjson. unfold get_forecast.
    by rewrite H200, Hjson.
  - split.
    + destruct requests_get as [e | response]; [discriminate |].
      unfold get_forecast.
      destruct (Z.eqb_spec (status_code response) 200) as [H200 | H200];
        [| discriminate].
      destruct (json response) as [e | body] eqn:Hjson; [discriminate |].
      intros _. by exists response, body.
    + intros (response & body & -> & H200 & Hjson). unfold get_forecast.
      by rewrite H200, Hjson.
  - destruct requests_get as [e | response]; unfold get_forecast.
    { by eexists _, _. }
    destruct (status_code response =? 200); [| by eexists _, _].
    destruct (json response) as [e | body]; [by eexists _, _ |].
    exists [], body. by split.
Qed.

Lemma get_forecast_cases_witness :
  get_forecast (inr {| status_code := 503; json := inr (PDict []) |})
    = ([st_error "Error fetching forecast: 503"], Ok PNone) ∧
  get_forecast (inr {| status_code := 200; json := inr (PInt 7) |})
    = ([], Ok (PInt 7)).
Proof.
  split.
  - destruct (get_forecast_cases (inr {| status_code := 503; json := inr (PDict []) |}))
      as (_ & H503 & _).
    apply (H503 _ eq_refl). simpl. lia.
  - destruct (get_forecast_cases (inr {| status_code := 200; json := inr (PInt 7) |}))
      as (_ & _ & _ & H200 & _).
    apply (H200 _ _ eq_refl); reflexivity.
Defined.

(** ** The forecast tab *)

Section ForecastTab.

(** Whatever pandas does beyond the two laws. *)
Context `{pandas : Pandas}.

Lemma set_date_mismatch (df : Frame) :
  length (rows df) ≠ 0%nat → length (rows df) ≠ 6%nat →
  set_date df month_labels = Raise ValueError.
Proof.
  intros H0 H6. unfold set_date.
  destruct (rows df) as [| r rs] eqn:Hrows; [done |].
  change (length month_labels) with 6%nat.
  by destruct (Nat.eqb_spec (length (r :: rs)) 6).
Qed.

Lemma tab4_body (body : pyval) :
  truthy body = true →
  ∀ e, (forecast_results ← getitem body "forecast";
        forecast_df ← pd_DataFrame forecast_results;
        forecast_df ← set_date forecast_df month_labels;
        _ ← column forecast_df "date";
        column forecast_df "predicted_value") = Raise e →
  tab4 (ok_200 body)
    = ([st_subheader "Forecasted Fertilizer Requirements"], Raise e).
Proof.
  intros Htruthy e. unfold tab4, ok_200, get_forecast. simpl. rewrite Htruthy.
  destruct (getitem body "forecast") as [forecast_results |]; simpl;
    [| by intros [= ->]].
  destruct (pd_DataFrame forecast_results) as [df |]; simpl; [| by intros [= ->]].
  destruct (set_date df month_labels) as [dated |]; simpl; [| by intros [= ->]].
  destruct (column dated "date") as [labels |]; simpl; [| by intros [= ->]].
  destruct (column dated "predicted_value") as [values |]; simpl; [discriminate |].
  by intros [= ->].
Qed.

(** C9, as the code has it. On a 200 response whose body is a non-empty
    object, the tab raises, and shows no error of its own, when the object
    has no "forecast" key (a KeyError for that key) and when its "forecast"
    is a list of other than six items: with one to five or more than six
    items the frame constructor raises or the assignment of the six labels
    fails on the length (a ValueError); with no item the labels are assigned
    to the empty frame and the lookup of the predicted_value column raises
    a KeyError. *)
Theorem tab4_malformed_forecast_raises (fields : list (string * pyval)) :
  fields ≠ [] →
  lookup_field "forecast" fields = None ∨
  (∃ items, lookup_field "forecast" fields = Some (PList items) ∧
            length items ≠ 6%nat) →
  ∃ e, tab4 (ok_200 (PDict fields))
         = ([st_subheader "Forecasted Fertilizer Requirements"], Raise e) ∧
       (lookup_field "forecast" fields = None → e = KeyError "forecast") ∧
       (lookup_field "forecast" fields = Some (PList []) →
          e = KeyError "predicted_value") ∧
       (∀ items df, lookup_field "forecast" fields = Some (PList items) →
          items ≠ [] → pd_DataFrame (PList items) = Ok df → e = ValueError).
Proof.
  intros Hfields Hshape.
  assert (Htruthy : truthy (PDict fields) = true) by (by destruct fields).
  destruct Hshape as [Hnone | (items & Hsome & Hlen)].
  - exists (KeyError "forecast"). split; [| split; [done | split; congruence]].
    apply tab4_body; [assumption |]. simpl. by rewrite Hnone.
  - destruct items as [| item items].
    + exists (KeyError "predicted_value").
      split; [| split; [congruence | split; [done | congruence]]].
      apply tab4_body; [assumption |]. simpl. rewrite Hsome. simpl.
      by rewrite DataFrame_empty.
    + destruct (pd_DataFrame (PList (item :: items))) as [df | e] eqn:Hdf.
      * exists ValueError. split; [| split; [congruence | split; [congruence | done]]].
        apply tab4_body; [assumption |]. simpl. rewrite Hsome. simpl. rewrite Hdf.
        simpl. apply DataFrame_rows in Hdf.
        rewrite set_date_mismatch; [reflexivity | |]; rewrite Hdf; [done | assumption].
      * exists e. split; [| split; [congruence | split; [congruence |]]].
        -- apply tab4_body; [assumption |]. simpl. rewrite Hsome. simpl.
           by rewrite Hdf.
        -- intros items' df Hsome'. congruence.
Qed.

End ForecastTab.

(** A 200 response whose body is the empty object lacks the "forecast" key,
    yet the tab raises nothing: the empty object is falsy, so the page takes
    the branch of a failed fetch and shows the error and the instructions. *)
Lemma tab4_empty_object_no_exception :
  lookup_field "forecast" [] = None ∧
  (∃ instructions,
     tab4 (ok_200 (PDict []))
     = ([ st_subheader "Forecasted Fertilizer Requirements";
          st_error "Unable to get forecast data. Make sure the API server is running.";
          st_info instructions ], Ok tt)) ∧
  ¬ ∃ shown e, tab4 (ok_200 (PDict [])) = (shown, Raise e).
Proof.
  split; [reflexivity |]. split; [eexists; reflexivity |].
  intros (shown & e & Hraise). discriminate Hraise.
Qed.

Lemma tab4_malformed_forecast_raises_witness :
  tab4 (ok_200 (PDict [("forecast",
          PList [PDict [("predicted_value", PFloat f82_5);
                        ("lower_ci", PFloat f70); ("upper_ci", PFloat f82_5)]])]))
  = ([st_subheader "Forecasted Fertilizer Requirements"], Raise ValueError).
Proof.
  destruct (tab4_malformed_forecast_raises
              [("forecast",
                PList [PDict [("predicted_value", PFloat f82_5);
                              ("lower_ci", PFloat f70); ("upper_ci", PFloat f82_5)]])])
    as (e & Hpage & _ & _ & Hvalue).
  - discriminate.
  - right. eexists. split; [reflexivity | simpl; lia].
  - rewrite Hpage. f_equal. f_equal. eapply Hvalue; [reflexivity | discriminate | reflexivity].
Defined.

(** The page for a well-formed forecast of six records: the chart, the two
    tables and one expander per month, in order. *)
Example tab4_six_months :
  ∃ intro d,
    generate_recommendations six_months = Ok d ∧
    tab4 (ok_200 (PDict [("forecast", PList
            [ forecast_record f82_5 f70 f82_5; forecast_record f70 f55 f82_5;
              forecast_record f47_5 f40 f55; forecast_record f12_75 fm3_5 f30;
              forecast_record fm3_5 fm3_5 f12_75;
              forecast_record f70_01 f61_25 f82_5 ])]))
    = ([ st_subheader "Forecasted Fertilizer Requirements";
         st_plotly_chart;
         st_subheader "Predicted Values"; st_dataframe;
         st_subheader "Confidence Intervals"; st_dataframe;
         st_subheader "Fertilizer Recommendations"; st_markdown intro ]
       ++ map (λ kv, st_expander ("Recommendation for " +:+ kv.1) kv.2) d,
       Ok tt) ∧
    keys d = month_labels.
Proof.
  eexists _, _. split; [vm_compute; reflexivity |].
  split; vm_compute; reflexivity.
Qed.

(** ** More on the generator: cells outside the numeric domain *)

(** A float cell never makes the loop body raise. *)
Lemma recommendation_for_float (row : Row) (f : spec_float) :
  predicted_value row = PFloat f →
  ∃ b, band_of (PFloat f) = Ok b ∧
       recommendation_for row
         = Ok (band_text b (Num.float_format_2f f) +:+ soil_health_notes).
Proof.
  intros Hv. rewrite recommendation_for_band, Hv. unfold band_of. simpl.
  destruct (Num.float_gt_int f 70); [by exists High |].
  destruct (Num.float_gt_int f 55); [by exists ModerateHigh |].
  destruct (Num.float_gt_int f 40); [by exists Moderate | by exists LowModerate].
Qed.

(** X1. A float that is not finite still gets an advisory: every comparison
    with NaN is false, so NaN falls through to the last branch and is advised
    Low-Moderate with the heading value "nan"; minus infinity is advised
    Low-Moderate with "-inf" and plus infinity High with "inf". *)
Theorem advisory_of_non_finite_float (row : Row) (f : spec_float) :
  predicted_value row = PFloat f →
  Num.float_is_finite f = false →
  ∃ b v, recommendation_for row = Ok (band_text b v +:+ soil_health_notes) ∧
         generate_recommendations [row]
           = Ok [(date row, band_text b v +:+ soil_health_notes)] ∧
         (b, v) = match f with
                  | S754_infinity false => (High, "inf")
                  | S754_infinity true => (LowModerate, "-inf")
                  | _ => (LowModerate, "nan")
                  end.
Proof.
  intros Hv Hfin.
  assert (Hgen : ∀ t, recommendation_for row = Ok t →
                      generate_recommendations [row] = Ok [(date row, t)]).
  { intros t Ht. unfold generate_recommendations. simpl. by rewrite Ht. }
  destruct f as [s | [] | | s m e]; try discriminate Hfin.
  - exists LowModerate, "-inf".
    assert (Ht : recommendation_for row
                 = Ok (band_text LowModerate "-inf" +:+ soil_health_notes))
      by (unfold recommendation_for; rewrite Hv; reflexivity).
    auto.
  - exists High, "inf".
    assert (Ht : recommendation_for row
                 = Ok (band_text High "inf" +:+ soil_health_notes))
      by (unfold recommendation_for; rewrite Hv; reflexivity).
    auto.
  - exists LowModerate, "nan".
    assert (Ht : recommendation_for row
                 = Ok (band_text LowModerate "nan" +:+ soil_health_notes))
      by (unfold recommendation_for; rewrite Hv; reflexivity).
    auto.
Qed.

Lemma advisory_of_non_finite_float_witness :
  ∃ b v, recommendation_for
           {| date := "Month 3"; predicted_value := nan;
              lower_ci := nan; upper_ci := nan |}
         = Ok (band_text b v +:+ soil_health_notes) ∧ (b, v) = (LowModerate, "nan").
Proof.
  destruct (advisory_of_non_finite_float
              {| date := "Month 3"; predicted_value := nan;
                 lower_ci := nan; upper_ci := nan |} S754_nan)
    as (b & v & Ht & _ & Hbv); [reflexivity | reflexivity |].
  exists b, v. by split.
Defined.

(** X2. The first row that raises decides the call: when the rows before it
    are processed without exception, the call raises that row's exception
    and returns no mapping, whatever rows follow. A cell that is None, a
    string, a list or a dict raises TypeError at the first comparison. *)
Theorem first_failing_row_raises (before after : list Row) (row : Row) (e : exn) :
  Forall (λ r, ∃ t, recommendation_for r = Ok t) before →
  recommendation_for row = Raise e →
  generate_recommendations (before ++ row :: after) = Raise e ∧
  (not_a_number (predicted_value row) → e = TypeError).
Proof.
  intros Hbefore Hrow. split.
  - unfold generate_recommendations. generalize (@nil (string * string)).
    induction Hbefore as [| r before [t Ht] _ IH]; intros d; simpl.
    + by rewrite Hrow.
    + rewrite Ht. simpl. apply IH.
  - intros Hnan. revert Hrow. unfold recommendation_for.
    destruct (predicted_value row); simpl in *; try done; by intros [= <-].
Qed.

Lemma first_failing_row_raises_witness :
  generate_recommendations
    [ forecast_row "Month 1" f82_5 f70 f82_5;
      {| date := "Month 2"; predicted_value := PStr "n/a";
         lower_ci := PNone; upper_ci := PNone |};
      forecast_row "Month 3" f40 f30 f55 ] = Raise TypeError.
Proof.
  apply (first_failing_row_raises
           [forecast_row "Month 1" f82_5 f70 f82_5]
           [forecast_row "Month 3" f40 f30 f55]
           {| date := "Month 2"; predicted_value := PStr "n/a";
              lower_ci := PNone; upper_ci := PNone |} TypeError).
  - repeat constructor. eexists. vm_compute. reflexivity.
  - reflexivity.
Defined.

(** X3. An integer cell raises OverflowError exactly when it has no finite
    double, that is when its magnitude is at least [2 ^ 1024 - 2 ^ 970]; the
    comparison with the thresholds is made on the integer itself and never
    fails. *)
Theorem integer_cell_overflow (row : Row) (z : Z) :
  predicted_value row = PInt z →
  (∃ b, band_of (predicted_value row) = Ok b) ∧
  (recommendation_for row = Raise OverflowError ↔ 2 ^ 1024 - 2 ^ 970 <= Z.abs z) ∧
  (Z.abs z < 2 ^ 1024 - 2 ^ 970 → ∃ t, recommendation_for row = Ok t).
Proof.
  intros Hv. rewrite recommendation_for_band, Hv.
  assert (Hband : ∃ b, band_of (PInt z) = Ok b).
  { unfold band_of. simpl. destruct (70 <? z); [by eexists |].
    destruct (55 <? z); [by eexists |]. destruct (40 <? z); by eexists. }
  destruct Hband as [b Hb]. rewrite Hb. split; [eauto |]. simpl.
  destruct (Num.float_of_int z) as [f |] eqn:Hf; simpl.
  - assert (Hlt : ¬ 2 ^ 1024 - 2 ^ 970 <= Z.abs z).
    { rewrite <- float_of_int_overflow. congruence. }
    split; [split; [discriminate | done] | eauto].
  - apply float_of_int_overflow in Hf. split; [done | lia].
Qed.

Lemma integer_cell_overflow_witness :
  recommendation_for
    {| date := "Month 1"; predicted_value := PInt (- 2 ^ 1024);
       lower_ci := PNone; upper_ci := PNone |} = Raise OverflowError.
Proof.
  apply (integer_cell_overflow
           {| date := "Month 1"; predicted_value := PInt (- 2 ^ 1024);
              lower_ci := PNone; upper_ci := PNone |} (- 2 ^ 1024)).
  - reflexivity.
  - vm_compute. discriminate.
Defined.

(** ** More on the generator: the heading and the band *)

(** X4. The band is decided on the exact value and the heading prints the
    value rounded to two decimals, so the two can disagree at a threshold: a
    float above 70, 55 or 40 by less than 0.005 is advised in the higher
    band under a heading that prints the threshold itself, the number that
    a value exactly on the threshold prints in the lower band. *)
Theorem heading_rounds_onto_threshold
    (row : Row) (f : spec_float) (q : Q) (t : Z) (b : band) :
  predicted_value row = PFloat f →
  Num.float_value f = Some q →
  (t, b) ∈ [(70, High); (55, ModerateHigh); (40, Moderate)] →
  (inject_Z t < q)%Q → (q < inject_Z t + (1 # 200))%Q →
  band_of (PFloat f) = Ok b ∧
  recommendation_for row
    = Ok (band_text b (Num.decimal t +:+ ".00") +:+ soil_health_notes).
Proof.
  intros Hv Hq Htb Hlo Hhi.
  assert (Ht : 40 <= t <= 70).
  { repeat (apply elem_of_cons in Htb as [[= -> ->] | Htb]; [lia |]).
    by apply not_elem_of_nil in Htb. }
  assert (Hband : band_of (PFloat f) = Ok b).
  { destruct (band_of_value (PFloat f) q Hq) as (b' & -> & HH & HMH & HM & _).
    f_equal.
    repeat (apply elem_of_cons in Htb as [[= -> ->] | Htb];
            [first [apply HH | apply HMH | apply HM];
             change (inject_Z 70) with 70%Q in *;
             change (inject_Z 55) with 55%Q in *;
             change (inject_Z 40) with 40%Q in *; try split; lra |]).
    by apply not_elem_of_nil in Htb. }
  split; [assumption |].
  rewrite recommendation_for_band, Hv, Hband. simpl. do 3 f_equal.
  destruct f as [s | s | | s m e]; try discriminate Hq; simpl in Hq.
  { injection Hq as <-. exfalso. revert Hlo. unfold Qlt. simpl. lia. }
  destruct (Z.leb_spec 0 e) as [He | He]; injection Hq as <-.
  { exfalso. revert Hlo Hhi. unfold Qlt. simpl.
    assert (0 < 2 ^ e) by (apply Z.pow_pos_nonneg; lia).
    destruct s; nia. }
  assert (Hden : 0 < 2 ^ (- e)) by (apply Z.pow_pos_nonneg; lia).
  revert Hlo Hhi. unfold Qlt, Qplus. simpl. rewrite !Z2Pos.id by lia.
  change (Z.pos (1 * 200)) with 200.
  intros Hlo Hhi.
  destruct s; [exfalso; nia |]. simpl.
  destruct (hundredths_nearest m e He) as [Hnear _]. cbv zeta in Hnear.
  assert (Hn : Num.hundredths m e = 100 * t).
  { set (n := Num.hundredths m e) in *. set (den := 2 ^ (- e)) in *.
    clearbody n den. nia. }
  rewrite Hn.
  repeat (apply elem_of_cons in Htb as [[= -> ->] | Htb]; [reflexivity |]).
  by apply not_elem_of_nil in Htb.
Qed.

Lemma heading_rounds_onto_threshold_witness :
  recommendation_for
    (forecast_row "Month 1" (S754_finite false 4925882461180658 (-46)) f55 f82_5)
  = Ok (high_text "70.00" +:+ soil_health_notes).
Proof.
  apply (heading_rounds_onto_threshold
           (forecast_row "Month 1" (S754_finite false 4925882461180658 (-46)) f55 f82_5)
           (S754_finite false 4925882461180658 (-46))
           (4925882461180658 # 70368744177664)%Q 70 High).
  - reflexivity.
  - reflexivity.
  - constructor.
  - reflexivity.
  - reflexivity.
Defined.

Lemma append_length (s t : string) :
  String.length (s +:+ t) = (String.length s + String.length t)%nat.
Proof. induction s as [| c s IH]; simpl; [reflexivity | by rewrite IH]. Qed.

Lemma append_inv_tail (s1 s2 t : string) : s1 +:+ t = s2 +:+ t → s1 = s2.
Proof.
  revert s2. induction s1 as [| c s1 IH]; intros [| c2 s2] H; simpl in H.
  - reflexivity.
  - apply (f_equal String.length) in H. simpl in H. rewrite append_length in H. lia.
  - apply (f_equal String.length) in H. simpl in H. rewrite append_length in H. lia.
  - injection H as -> H. f_equal. by apply IH.
Qed.

Lemma band_text_injective (b1 b2 : band) (v1 v2 : string) :
  band_text b1 v1 +:+ soil_health_notes = band_text b2 v2 +:+ soil_health_notes →
  b1 = b2 ∧ v1 = v2.
Proof.
  intros H. apply append_inv_tail in H.
  destruct b1, b2; cbn in H; try discriminate H; split; try reflexivity.
  all: simplify_eq; rewrite ?append_assoc in *; by eapply append_inv_tail.
Qed.

(** X5. The advisory text tells the band and the printed value: two rows
    that get the same advisory are in the same band and print the same
    two-decimal value, so no two bands and no two printed values share a
    text. *)
Theorem advisory_tells_band_and_value (row1 row2 : Row) (t : string) :
  recommendation_for row1 = Ok t →
  recommendation_for row2 = Ok t →
  band_of (predicted_value row1) = band_of (predicted_value row2) ∧
  format_2f (predicted_value row1) = format_2f (predicted_value row2).
Proof.
  rewrite !recommendation_for_band. intros H1 H2.
  destruct (band_of (predicted_value row1)) as [b1 | e1]; [| discriminate H1].
  destruct (band_of (predicted_value row2)) as [b2 | e2]; [| discriminate H2].
  destruct (format_2f (predicted_value row1)) as [v1 | e1]; [| discriminate H1].
  destruct (format_2f (predicted_value row2)) as [v2 | e2]; [| discriminate H2].
  cbn in H1, H2. injection H1 as H1. injection H2 as H2.
  rewrite <- H2 in H1. apply band_text_injective in H1 as [-> ->]. done.
Qed.

Lemma advisory_tells_band_and_value_witness :
  band_of (PInt 70) = band_of (PFloat f70) ∧
  format_2f (PInt 70) = format_2f (PFloat f70).
Proof.
  apply (advisory_tells_band_and_value
           {| date := "Month 1"; predicted_value := PInt 70;
              lower_ci := PInt 60; upper_ci := PInt 80 |}
           (forecast_row "Month 2" f70 f55 f82_5)
           (band_text ModerateHigh "70.00" +:+ soil_health_notes)).
  - vm_compute. reflexivity.
  - vm_compute. reflexivity.
Defined.

(** ** More on the generator: frames put together *)

Lemma dict_set_app_fresh (k v : string) (d1 d2 : dict) :
  k ∉ keys d1 → dict_set k v (d1 ++ d2) = d1 ++ dict_set k v d2.
Proof.
  unfold keys. induction d1 as [| [k1 v1] d1 IH]; intros Hk; simpl; [reflexivity |].
  destruct (String.eqb_spec k k1) as [-> | Hne]; [set_solver |].
  rewrite IH; [reflexivity | set_solver].
Qed.

Lemma store_all_app_fresh (kvs : list (string * string)) (d1 d2 : dict) :
  (∀ k, k ∈ kvs.*1 → k ∉ keys d1) →
  store_all kvs (d1 ++ d2) = d1 ++ store_all kvs d2.
Proof.
  revert d2. induction kvs as [| [k v] kvs IH]; intros d2 Hfresh; [reflexivity |].
  unfold store_all in *. simpl.
  rewrite dict_set_app_fresh by (apply Hfresh; set_solver).
  apply IH. intros k' Hk'. apply Hfresh. set_solver.
Qed.

Lemma texts_of_app (rows1 rows2 : list Row) :
  texts_of (rows1 ++ rows2)
  = (ts1 ← texts_of rows1; ts2 ← texts_of rows2; mret (ts1 ++ ts2)).
Proof.
  induction rows1 as [| r rows1 IH]; simpl.
  - by destruct (texts_of rows2).
  - destruct (recommendation_for r); simpl; [| reflexivity].
    rewrite IH. destruct (texts_of rows1); simpl; [| reflexivity].
    by destruct (texts_of rows2).
Qed.

Lemma texts_of_length (rows : list Row) (ts : list string) :
  texts_of rows = Ok ts → length ts = length rows.
Proof.
  revert ts. induction rows as [| r rows IH]; simpl; intros ts.
  - by intros [= <-].
  - destruct (recommendation_for r); simpl; [| discriminate].
    destruct (texts_of rows) as [ts' |]; simpl; [| discriminate].
    intros [= <-]. simpl. by rewrite (IH ts').
Qed.

Lemma combine_fst_elem (ks ts : list string) (k : string) :
  k ∈ (combine ks ts).*1 → k ∈ ks.
Proof.
  revert ts. induction ks as [| k0 ks IH]; intros [| t ts]; simpl;
    try (by intros ?%not_elem_of_nil).
  intros [-> | Hk]%elem_of_cons; [apply list_elem_of_here |].
  apply list_elem_of_further. by apply (IH ts).
Qed.

(** X6. Two frames that share no period label can be processed one after
    the other: the mapping of the frames put together is the mapping of the
    first followed by the mapping of the second, and the first exception of
    the two calls is the exception of the whole. *)
Theorem generate_recommendations_app (rows1 rows2 : list Row) :
  (∀ k, k ∈ map date rows1 → k ∉ map date rows2) →
  generate_recommendations (rows1 ++ rows2)
  = (d1 ← generate_recommendations rows1;
     d2 ← generate_recommendations rows2;
     mret (d1 ++ d2)).
Proof.
  intros Hdisj. unfold generate_recommendations.
  rewrite !fill_recommendations_texts, texts_of_app.
  destruct (texts_of rows1) as [ts1 |] eqn:H1; simpl; [| reflexivity].
  destruct (texts_of rows2) as [ts2 |] eqn:H2; simpl; [| reflexivity].
  f_equal. apply texts_of_length in H1. apply texts_of_length in H2.
  rewrite map_app. unfold store_all.
  assert (Hcomb : combine (map date rows1 ++ map date rows2) (ts1 ++ ts2)
                  = combine (map date rows1) ts1 ++ combine (map date rows2) ts2).
  { clear Hdisj H2. revert ts1 H1.
    induction rows1 as [| r rows1 IH]; intros [| t ts1] Hlen; simpl in *;
      try discriminate; [reflexivity |]. f_equal. apply IH. lia. }
  rewrite Hcomb, foldl_app. fold (store_all (combine (map date rows1) ts1) []).
  fold (store_all (combine (map date rows2) ts2)
                  (store_all (combine (map date rows1) ts1) [])).
  rewrite <- (app_nil_r (store_all (combine (map date rows1) ts1) [])) at 1.
  apply store_all_app_fresh.
  intros k Hk Hin.
  apply (Hdisj k).
  - rewrite keys_store_all in Hin. apply foldl_add_key_elem in Hin as [Hin | Hin];
      [by apply not_elem_of_nil in Hin |].
    by apply combine_fst_elem in Hin.
  - by apply combine_fst_elem in Hk.
Qed.

Lemma generate_recommendations_app_witness :
  generate_recommendations six_months
  = (d1 ← generate_recommendations (take 2 six_months);
     d2 ← generate_recommendations (drop 2 six_months);
     mret (d1 ++ d2)).
Proof.
  apply (generate_recommendations_app (take 2 six_months) (drop 2 six_months)).
  intros k Hk. apply (bool_decide_unpack _).
  simpl in Hk. repeat (apply elem_of_cons in Hk as [-> | Hk]; [vm_compute; exact I |]).
  by apply not_elem_of_nil in Hk.
Defined.

(** ** More on the forecast tab *)

Section ForecastTabMore.

Context `{pandas : Pandas}.

(** X7. When the fetch fails, whatever the failure, the tab raises nothing:
    under its heading it shows the fetch's error, then the notice that no
    forecast is available and the instructions to start the server, and
    nothing of a forecast. *)
Theorem tab4_fetch_failed (requests_get : request) :
  fetch_failed requests_get →
  ∃ msg, get_forecast requests_get = ([st_error msg], Ok PNone) ∧
         tab4 requests_get
         = ([ st_subheader "Forecasted Fertilizer Requirements";
              st_error msg; st_error unable_message; st_info api_instructions ],
            Ok tt).
Proof.
  intros Hfail. unfold tab4.
  destruct requests_get as [e | response]; simpl in *.
  - by eexists.
  - destruct (Z.eqb_spec (status_code response) 200) as [H200 | H200].
    + destruct Hfail as [? | [e He]]; [done |]. rewrite He. by eexists.
    + by eexists.
Qed.

(** X8. A 200 response whose body is falsy (null, false, zero, the empty
    string, list or object) is treated as no forecast: the notice and the
    instructions are shown, without the error of a failed fetch and without
    exception. *)
Theorem tab4_falsy_body (body : pyval) :
  truthy body = false →
  tab4 (ok_200 body)
  = ([ st_subheader "Forecasted Fertilizer Requirements";
       st_error unable_message; st_info api_instructions ], Ok tt).
Proof. intros Hfalsy. unfold tab4. simpl. by rewrite Hfalsy. Qed.

(** X9. A 200 response whose body is truthy but not an object (a non-empty
    list or string, a non-zero number, true) makes the tab raise TypeError at
    the lookup of "forecast", with only the heading shown. *)
Theorem tab4_body_not_an_object (body : pyval) :
  truthy body = true →
  (∀ fields, body ≠ PDict fields) →
  tab4 (ok_200 body)
  = ([st_subheader "Forecasted Fertilizer Requirements"], Raise TypeError).
Proof.
  intros Htruthy Hobj. apply tab4_body; [assumption |].
  destruct body; try reflexivity. by destruct (Hobj fields).
Qed.

End ForecastTabMore.

Lemma tab4_fetch_failed_witness :
  tab4 (inr {| status_code := 503; json := inl "no body" |})
  = ([ st_subheader "Forecasted Fertilizer Requirements";
       st_error "Error fetching forecast: 503";
       st_error unable_message; st_info api_instructions ], Ok tt).
Proof.
  destruct (tab4_fetch_failed (inr {| status_code := 503; json := inl "no body" |}))
    as (msg & Hget & Hpage).
  - left. simpl. lia.
  - injection Hget as <-. exact Hpage.
Defined.

Lemma tab4_falsy_body_witness :
  tab4 (ok_200 (PList []))
  = ([ st_subheader "Forecasted Fertilizer Requirements";
       st_error unable_message; st_info api_instructions ], Ok tt).
Proof. apply (tab4_falsy_body (PList [])). reflexivity. Defined.

Lemma tab4_body_not_an_object_witness :
  tab4 (ok_200 (PList [PInt 1]))
  = ([st_subheader "Forecasted Fertilizer Requirements"], Raise TypeError).
Proof.
  apply (tab4_body_not_an_object (PList [PInt 1])); [reflexivity |].
  intros fields. discriminate.
Defined.

(** ** The forecast tab on a list of records *)

Lemma all_records_map (recs : list (list (string * pyval))) :
  all_records (map PDict recs) = Some recs.
Proof. induction recs as [| rec recs IH]; simpl; [reflexivity | by rewrite IH]. Qed.

Lemma lookup_field_is_Some (c : string) (rec : list (string * pyval)) :
  is_Some (lookup_field c rec) ↔ c ∈ rec.*1.
Proof.
  induction rec as [| [k v] rec IH]; simpl.
  - split; [by intros [? ?] | by intros ?%not_elem_of_nil].
  - destruct (String.eqb_spec c k) as [-> | Hne].
    + split; [intros _; apply list_elem_of_here | eauto].
    + rewrite IH. set_solver.
Qed.

Lemma frame_columns_elem (c : string) (recs : list (list (string * pyval))) :
  c ∈ foldl add_column [] (map fst (concat recs)) ↔ has_column c recs.
Proof.
  change add_column with add_key. rewrite foldl_add_key_elem.
  unfold has_column. rewrite Exists_exists.
  split.
  - intros [Hnil | Hin]; [by apply not_elem_of_nil in Hnil |].
    apply list_elem_of_fmap in Hin as ([k v] & -> & Hin).
    apply list_elem_of_In, in_concat in Hin as (rec & Hrec & Hin).
    exists rec. split; [by apply list_elem_of_In |]. apply lookup_field_is_Some.
    by apply list_elem_of_In, (list_elem_of_fmap_2 fst) in Hin.
  - intros (rec & Hrec & Hsome). right.
    apply lookup_field_is_Some, list_elem_of_fmap in Hsome as ([k v] & -> & Hin).
    apply (list_elem_of_fmap_2 fst (concat recs) (k, v)).
    apply list_elem_of_In, in_concat. exists rec.
    split; by apply list_elem_of_In.
Qed.

Lemma show_recommendations_events (d : dict) :
  show_recommendations d
  = (map (λ kv, st_expander ("Recommendation for " +:+ kv.1) kv.2) d, Ok tt).
Proof.
  induction d as [| [month rec] d IH]; simpl; [reflexivity |].
  unfold mbind, ui_bind, show. by rewrite IH.
Qed.

Lemma store_all_fresh (kvs : list (string * string)) (d : dict) :
  NoDup (keys d ++ kvs.*1) → store_all kvs d = d ++ kvs.
Proof.
  revert d. induction kvs as [| [k v] kvs IH]; intros d Hnd.
  - by rewrite app_nil_r.
  - unfold store_all in *. simpl in *.
    apply NoDup_app in Hnd as (Hd & Hdisj & Hkvs).
    assert (Hset : dict_set k v d = d ++ [(k, v)]).
    { rewrite <- (app_nil_r d) at 1. apply dict_set_app_fresh.
      intros Hin. apply (Hdisj k Hin). apply list_elem_of_here. }
    rewrite Hset, IH; [by rewrite <- app_assoc |].
    unfold keys. rewrite fmap_app, <- app_assoc. simpl.
    apply NoDup_app. repeat split; [assumption | | assumption].
    intros k' Hk'. by apply Hdisj.
Qed.

Lemma set_date_six (cols : list string) (recs : list (list (string * pyval))) :
  length recs = 6%nat →
  set_date {| columns := cols; rows := recs |} month_labels
  = Ok {| dated_columns := if bool_decide ("date" ∈ cols) then cols else cols ++ ["date"];
          dated_rows := combine month_labels recs |}.
Proof.
  intros Hlen. unfold set_date. simpl.
  destruct recs as [| r recs]; [discriminate |].
  change (length month_labels) with 6%nat. by rewrite Hlen.
Qed.

Lemma column_present (df : DatedFrame) (c : string) :
  c ∈ dated_columns df →
  column df c
  = Ok (map (λ r, if String.eqb c "date" then PStr r.1 else cell c r.2) (dated_rows df)).
Proof. intros Hc. unfold column. by rewrite bool_decide_eq_true_2. Qed.

Lemma column_absent (df : DatedFrame) (c : string) :
  c ∉ dated_columns df → column df c = Raise (KeyError c).
Proof. intros Hc. unfold column. by rewrite bool_decide_eq_false_2. Qed.

Lemma dated_columns_elem (cols : list string) (c : string) :
  c ∈ (if bool_decide ("date" ∈ cols) then cols else cols ++ ["date"])
  ↔ c ∈ cols ∨ c = "date".
Proof. case_bool_decide; set_solver. Qed.

(** The forecast tab up to the frame with its date column, on a list of
    six records. *)
Ltac tab4_six_records Hforecast Hlen :=
  let Htruthy := fresh "Htruthy" in
  match type of Hforecast with
  | lookup_field _ ?fields = _ =>
      assert (Htruthy : truthy (PDict fields) = true) by (by destruct fields)
  end;
  unfold tab4, ok_200, get_forecast; simpl status_code; simpl json;
  cbn [Z.eqb Pos.eqb mbind mret ui_bind ui_ret show run];
  rewrite Htruthy; cbn [getitem]; rewrite Hforecast;
  cbn [pd_DataFrame series_round records_pandas frame_of_records];
  rewrite all_records_map, (set_date_six _ _ Hlen).

Lemma tab4_six_records_shown (fields : list (string * pyval))
    (recs : list (list (string * pyval))) :
  lookup_field "forecast" fields = Some (PList (map PDict recs)) →
  length recs = 6%nat →
  has_column "predicted_value" recs → has_column "upper_ci" recs →
  has_column "lower_ci" recs →
  let cols := foldl add_column [] (map fst (concat recs)) in
  let df := {| dated_columns := if bool_decide ("date" ∈ cols) then cols
                                else cols ++ ["date"];
               dated_rows := combine month_labels recs |} in
  tab4 (ok_200 (PDict fields))
  = match generate_recommendations (iterrows df) with
    | Ok d =>
        (forecast_charts
         ++ map (λ kv, st_expander ("Recommendation for " +:+ kv.1) kv.2) d, Ok tt)
    | Raise e => (forecast_charts, Raise e)
    end.
Proof.
  intros Hforecast Hlen Hpv Hup Hlo cols df.
  tab4_six_records Hforecast Hlen. fold cols. fold df.
  rewrite !column_present
    by (apply dated_columns_elem; (by right) || (left; by apply frame_columns_elem)).
  cbn [mbind mret ui_bind ui_ret show run].
  destruct (generate_recommendations (iterrows df)) as [d | e]; [| reflexivity].
  by rewrite show_recommendations_events.
Qed.

(** X10. A 200 response whose "forecast" is a list of six records, each with
    float predicted_value, lower_ci and upper_ci, is rendered without
    exception: the chart and the two tables, then six expanders titled
    "Recommendation for Month 1" to "Month 6" in that order, the i-th holding
    the advisory for the i-th record's predicted value. *)
Theorem tab4_six_float_records (fields : list (string * pyval))
    (recs : list (list (string * pyval))) :
  lookup_field "forecast" fields = Some (PList (map PDict recs)) →
  length recs = 6%nat →
  Forall float_record recs →
  ∃ texts,
    Forall2 (λ rec t, ∃ f b,
               lookup_field "predicted_value" rec = Some (PFloat f) ∧
               band_of (PFloat f) = Ok b ∧
               t = band_text b (Num.float_format_2f f) +:+ soil_health_notes)
            recs texts ∧
    tab4 (ok_200 (PDict fields))
    = (forecast_charts
       ++ zip_with (λ label t, st_expander ("Recommendation for " +:+ label) t)
                   month_labels texts,
       Ok tt).
Proof.
  intros Hforecast Hlen Hrecs.
  assert (Hcol : ∀ c, c ∈ ["predicted_value"; "lower_ci"; "upper_ci"] →
                      has_column c recs).
  { intros c Hc. destruct Hrecs as [| rec recs Hrec _]; [discriminate |].
    apply Exists_cons_hd. destruct (Hrec c Hc) as [f ->]. eauto. }
  rewrite (tab4_six_records_shown fields recs Hforecast Hlen)
    by (apply Hcol; set_solver).
  assert (Hrow : ∀ label rec, float_record rec →
            ∃ f b, lookup_field "predicted_value" rec = Some (PFloat f) ∧
                   band_of (PFloat f) = Ok b ∧
                   recommendation_for
                     {| date := label;
                        predicted_value := cell "predicted_value" rec;
                        lower_ci := cell "lower_ci" rec;
                        upper_ci := cell "upper_ci" rec |}
                   = Ok (band_text b (Num.float_format_2f f) +:+ soil_health_notes)).
  { intros label rec Hrec. destruct (Hrec "predicted_value") as [f Hf]; [set_solver |].
    destruct (recommendation_for_float
                {| date := label; predicted_value := cell "predicted_value" rec;
                   lower_ci := cell "lower_ci" rec;
                   upper_ci := cell "upper_ci" rec |} f) as (b & Hb & Ht).
    { unfold cell. simpl. by rewrite Hf. }
    by exists f, b. }
  destruct recs as [| r1 [| r2 [| r3 [| r4 [| r5 [| r6 [| ? ?]]]]]]]; try discriminate.
  repeat match goal with
         | H : Forall float_record (_ :: _) |- _ =>
             apply Forall_cons in H as [? H]
         end.
  destruct (Hrow "Month 1" r1) as (f1 & b1 & Hf1 & Hb1 & Ht1); [assumption |].
  destruct (Hrow "Month 2" r2) as (f2 & b2 & Hf2 & Hb2 & Ht2); [assumption |].
  destruct (Hrow "Month 3" r3) as (f3 & b3 & Hf3 & Hb3 & Ht3); [assumption |].
  destruct (Hrow "Month 4" r4) as (f4 & b4 & Hf4 & Hb4 & Ht4); [assumption |].
  destruct (Hrow "Month 5" r5) as (f5 & b5 & Hf5 & Hb5 & Ht5); [assumption |].
  destruct (Hrow "Month 6" r6) as (f6 & b6 & Hf6 & Hb6 & Ht6); [assumption |].
  eexists [_; _; _; _; _; _]. split.
  { repeat (constructor; [by eexists _, _ |]). constructor. }
  unfold generate_recommendations, iterrows.
  cbn [dated_rows month_labels seq map combine fill_recommendations fst snd date].
  change (Num.decimal (Z.of_nat 0 + 1)) with "1".
  change (Num.decimal (Z.of_nat 1 + 1)) with "2".
  change (Num.decimal (Z.of_nat 2 + 1)) with "3".
  change (Num.decimal (Z.of_nat 3 + 1)) with "4".
  change (Num.decimal (Z.of_nat 4 + 1)) with "5".
  change (Num.decimal (Z.of_nat 5 + 1)) with "6".
  change ("Month " +:+ "1") with "Month 1".
  change ("Month " +:+ "2") with "Month 2".
  change ("Month " +:+ "3") with "Month 3".
  change ("Month " +:+ "4") with "Month 4".
  change ("Month " +:+ "5") with "Month 5".
  change ("Month " +:+ "6") with "Month 6".
  rewrite Ht1. cbn [mbind outcome_bind fill_recommendations date].
  rewrite Ht2. cbn [mbind outcome_bind fill_recommendations date].
  rewrite Ht3. cbn [mbind outcome_bind fill_recommendations date].
  rewrite Ht4. cbn [mbind outcome_bind fill_recommendations date].
  rewrite Ht5. cbn [mbind outcome_bind fill_recommendations date].
  rewrite Ht6. cbn [mbind outcome_bind fill_recommendations date].
  reflexivity.
Qed.

Lemma tab4_six_float_records_witness :
  ∃ texts,
    tab4 (ok_200 (PDict [("forecast", PList
            [ forecast_record f82_5 f70 f82_5; forecast_record f70 f55 f82_5;
              forecast_record f47_5 f40 f55; forecast_record f12_75 fm3_5 f30;
              forecast_record fm3_5 fm3_5 f12_75;
              forecast_record f70_01 f61_25 f82_5 ])]))
    = (forecast_charts
       ++ zip_with (λ label t, st_expander ("Recommendation for " +:+ label) t)
                   month_labels texts,
       Ok tt).
Proof.
  destruct (tab4_six_float_records
              [("forecast", PList
                 [ forecast_record f82_5 f70 f82_5; forecast_record f70 f55 f82_5;
                   forecast_record f47_5 f40 f55; forecast_record f12_75 fm3_5 f30;
                   forecast_record fm3_5 fm3_5 f12_75;
                   forecast_record f70_01 f61_25 f82_5 ])]
              [ [("predicted_value", PFloat f82_5); ("lower_ci", PFloat f70);
                 ("upper_ci", PFloat f82_5)];
                [("predicted_value", PFloat f70); ("lower_ci", PFloat f55);
                 ("upper_ci", PFloat f82_5)];
                [("predicted_value", PFloat f47_5); ("lower_ci", PFloat f40);
                 ("upper_ci", PFloat f55)];
                [("predicted_value", PFloat f12_75); ("lower_ci", PFloat fm3_5);
                 ("upper_ci", PFloat f30)];
                [("predicted_value", PFloat fm3_5); ("lower_ci", PFloat fm3_5);
                 ("upper_ci", PFloat f12_75)];
                [("predicted_value", PFloat f70_01); ("lower_ci", PFloat f61_25);
                 ("upper_ci", PFloat f82_5)] ])
    as (texts & _ & Hpage).
  - reflexivity.
  - reflexivity.
  - repeat constructor; intros c Hc;
      repeat (apply elem_of_cons in Hc as [-> | Hc]; [by eexists |]);
      by apply not_elem_of_nil in Hc.
  - by exists texts.
Defined.

(** X11. On a list of six records the columns are looked up in the order
    predicted_value, upper_ci, lower_ci while the chart is built: the first
    of them that no record carries raises KeyError for that column, with
    only the heading shown. *)
Theorem tab4_missing_column (fields : list (string * pyval))
    (recs : list (list (string * pyval))) (before after : list string) (c : string) :
  lookup_field "forecast" fields = Some (PList (map PDict recs)) →
  length recs = 6%nat →
  ["predicted_value"; "upper_ci"; "lower_ci"] = before ++ c :: after →
  Forall (λ c', has_column c' recs) before →
  ¬ has_column c recs →
  tab4 (ok_200 (PDict fields))
  = ([st_subheader "Forecasted Fertilizer Requirements"], Raise (KeyError c)).
Proof.
  intros Hforecast Hlen Horder Hbefore Hmissing.
  tab4_six_records Hforecast Hlen.
  set (cols := foldl add_column [] (map fst (concat recs))).
  set (df := {| dated_columns := _; dated_rows := _ |}).
  assert (Hpresent : ∀ c', has_column c' recs → c' ∈ dated_columns df)
    by (intros c' Hc'; apply dated_columns_elem; left; by apply frame_columns_elem).
  assert (Hdate : "date" ∈ dated_columns df) by (apply dated_columns_elem; by right).
  assert (Habsent : c ≠ "date" → c ∉ dated_columns df).
  { intros Hne [Hin | ?]%dated_columns_elem; [| done].
    by apply Hmissing, frame_columns_elem. }
  rewrite (column_present df "date") by assumption.
  cbn [mbind mret ui_bind ui_ret show run].
  destruct before as [| c1 [| c2 [| c3 before]]]; simpl in Horder; simplify_eq.
  - rewrite column_absent by (by apply Habsent). reflexivity.
  - apply Forall_cons in Hbefore as [H1 _].
    rewrite (column_present df "predicted_value") by (by apply Hpresent).
    cbn [mbind mret ui_bind ui_ret show run].
    rewrite column_absent by (by apply Habsent). reflexivity.
  - apply Forall_cons in Hbefore as [H1 [H2 _]%Forall_cons].
    rewrite (column_present df "predicted_value") by (by apply Hpresent).
    rewrite (column_present df "upper_ci") by (by apply Hpresent).
    cbn [mbind mret ui_bind ui_ret show run].
    rewrite column_absent by (by apply Habsent). reflexivity.
  - by destruct before.
Qed.

Lemma tab4_missing_column_witness :
  let rec := [("predicted_value", PFloat f82_5); ("lower_ci", PFloat f70)] in
  tab4 (ok_200 (PDict [("forecast", PList (map PDict (replicate 6 rec)))]))
  = ([st_subheader "Forecasted Fertilizer Requirements"], Raise (KeyError "upper_ci")).
Proof.
  intros rec.
  apply (tab4_missing_column _ (replicate 6 rec) ["predicted_value"] ["lower_ci"]).
  - reflexivity.
  - reflexivity.
  - reflexivity.
  - repeat constructor. by eexists.
  - intros H. apply Exists_exists in H as (r & Hr & [v Hv]).
    apply elem_of_replicate in Hr as [-> _]. discriminate Hv.
Defined.
